(** * Maintenance strategies for an offshore wind turbine: the downtime
      simulator and the revenue calculator of [src/strategy_utils.py].

    The data frame is a list of rows in positional order, each carrying its
    index label (a timestamp).  Timestamps are whole seconds since the epoch,
    [datetime.timedelta(days=d)] is [d * 86400] seconds.  Python floats are
    idealised as exact rationals ([Q]); the [NaN] that initialises the
    pressure column is [None].  The repeated subtraction of the decline is
    also given in binary64 (module [Binary64]), where it rounds at every
    step.  The simulator mutates the frame and the strategy object in place:
    both are threaded through the loop as explicit state. *)

From Stdlib Require Import ZArith QArith Qabs List Bool Lia Lqa String Sorted.
From Stdlib Require Floats Uint63.
Import ListNotations.
Open Scope Z_scope.

(** ** Calendar fields of a timestamp

    [current_time.month] and [current_time.day] of the proleptic Gregorian
    calendar, computed from the day number by era / day-of-era / year-of-era
    arithmetic. *)
Module Calendar.

Definition SECONDS_PER_DAY : Z := 86400.

Definition timedelta_days (d : Z) : Z := d * SECONDS_PER_DAY.

Definition day_number (t : Z) : Z := t / SECONDS_PER_DAY.

Definition day_of_era (z : Z) : Z := (z + 719468) mod 146097.

Definition year_of_era (doe : Z) : Z :=
  (doe - doe / 1460 + doe / 36524 - doe / 146096) / 365.

Definition day_of_year (doe : Z) : Z :=
  let yoe := year_of_era doe in
  doe - (365 * yoe + yoe / 4 - yoe / 100).

(* months counted from March: 0 = March, ..., 11 = February *)
Definition month_from_march (doy : Z) : Z := (5 * doy + 2) / 153.

Definition month_of (t : Z) : Z :=
  let mp := month_from_march (day_of_year (day_of_era (day_number t))) in
  if mp <? 10 then mp + 3 else mp - 9.

Definition day_of (t : Z) : Z :=
  let doy := day_of_year (day_of_era (day_number t)) in
  doy - (153 * month_from_march doy + 2) / 5 + 1.

End Calendar.

(** ** Module constants of [strategy_utils.py] *)

(* vessel params *)
Definition MAX_WIND_SPEED : Q := 5.
Definition MAINTENANCE_DURATION : Z := 1. (* in days *)
Definition VESSEL_COST : Z := 50000.

(* cooling system params *)
Definition INIT_PRES : Q := 2.          (* bars *)
Definition MIN_PRES : Q := 1 # 2.       (* bars *)
Definition DECLINE_RATE : Q := 1 # 10000. (* bars per interval *)

(** ** The data frame *)

Record Row : Type := mkRow {
  index    : Z;         (* "Timestamp (UTC)", the index label *)
  Speed    : Q;         (* "Speed (m/s)" *)
  Price    : Q;         (* "Price (Eur/MWh)" *)
  Power    : Q;         (* "Power (MW)" *)
  Revenue  : Q;         (* "Revenue (Eur)" *)
  pressure : option Q;  (* "pressure"; [None] is NaN *)
  visit    : Z          (* "visit", 0 or 1 *)
}.

Definition DataFrame : Type := list Row.

Definition set_pressure (p : option Q) (r : Row) : Row :=
  mkRow (index r) (Speed r) (Price r) (Power r) (Revenue r) p (visit r).

Definition set_visit (v : Z) (r : Row) : Row :=
  mkRow (index r) (Speed r) (Price r) (Power r) (Revenue r) (pressure r) v.

(* wind_df.index *)
Definition labels (df : DataFrame) : list Z := map index df.

(* wind_df["pressure"] = v : the whole column *)
Definition assign_pressure (v : option Q) (df : DataFrame) : DataFrame :=
  map (set_pressure v) df.

(* wind_df["visit"] = v : the whole column *)
Definition assign_visit (v : Z) (df : DataFrame) : DataFrame :=
  map (set_visit v) df.

(* wind_df.loc[ind, "pressure"] = v : every row labelled [ind] *)
Definition loc_set_pressure (ind : Z) (v : option Q) (df : DataFrame) : DataFrame :=
  map (fun r => if index r =? ind then set_pressure v r else r) df.

(* wind_df.loc[ind, "visit"] = v : every row labelled [ind] *)
Definition loc_set_visit (ind : Z) (v : Z) (df : DataFrame) : DataFrame :=
  map (fun r => if index r =? ind then set_visit v r else r) df.

(* idx[-1]; [None] is the IndexError of an empty index *)
Definition iloc_last (idx : list Z) : option Z :=
  match idx with
  | [] => None
  | _ :: _ => Some (last idx 0)
  end.

(* idx[idx >= x][0]; [None] is the IndexError of an empty selection *)
Definition first_geq (x : Z) (idx : list Z) : option Z :=
  hd_error (filter (fun i => x <=? i) idx).

(* a > b on floats that are not NaN *)
Definition Qgtb (a b : Q) : bool := negb (Qle_bool a b).

(* wind_df['Revenue (Eur)'] = wind_df['Power (MW)'] * wind_df['Price (Eur/MWh)']
   of [data_utils.generate_dataframe], for one row *)
Definition generate_row (t : Z) (speed price power : Q) : Row :=
  mkRow t speed price power (power * price)%Q None 0.

(** ** Strategies

    The abstract base class: every strategy object carries the visit counter
    [n_visits] and provides the decision method [fix_pressure]. *)

Class MaintenanceStrategy (S : Type) : Type := {
  n_visits : S -> Z;
  set_n_visits : Z -> S -> S;
  fix_pressure : S -> Q -> Z -> Q -> Q -> bool;
  (* reading the attribute back after [self.n_visits = n] *)
  n_visits_set : forall n s, n_visits (set_n_visits n s) = n
}.

Record ScheduledMaintenance : Type := mkScheduled {
  sm_n_visits : Z;
  sm_name : string;
  month : Z;
  day : Z
}.

Record ConditionMonitoring : Type := mkCondition {
  cm_n_visits : Z;
  cm_name : string;
  pressure_threshold : Q
}.

(* The outcome of a call that may raise. *)
Inductive outcome (A : Type) : Type :=
| Returned (a : A)
| Raised (error : string).
Arguments Returned {A} a.
Arguments Raised {A} error.

(* ScheduledMaintenance.__init__ *)
Definition ScheduledMaintenance_init (day month : Z) : outcome ScheduledMaintenance :=
  Returned (mkScheduled 0 "Scheduled Maintenance" month day).

(* ConditionMonitoring.__init__ *)
Definition ConditionMonitoring_init (pressure_threshold : Q) : outcome ConditionMonitoring :=
  Returned (mkCondition 0 "Condition Monitoring" pressure_threshold).

#[export] Instance ScheduledMaintenance_strategy : MaintenanceStrategy ScheduledMaintenance := {
  n_visits := sm_n_visits;
  set_n_visits n s := mkScheduled n (sm_name s) (month s) (day s);
  fix_pressure s current_pressure current_time current_wind_speed current_price :=
    (Calendar.month_of current_time =? month s) && (Calendar.day_of current_time =? day s);
  n_visits_set _ _ := eq_refl
}.

#[export] Instance ConditionMonitoring_strategy : MaintenanceStrategy ConditionMonitoring := {
  n_visits := cm_n_visits;
  set_n_visits n s := mkCondition n (cm_name s) (pressure_threshold s);
  fix_pressure s current_pressure current_time current_wind_speed current_price :=
    Qle_bool current_pressure (pressure_threshold s);
  n_visits_set _ _ := eq_refl
}.

(** ** The downtime simulator: [MaintenanceStrategy.add_downtimes] *)

Section Simulator.

Context {S : Type} `{MaintenanceStrategy S}.

(* The variables of the loop, with the frame and the strategy object it
   mutates. *)
Record Frame : Type := mkFrame {
  wind_df : DataFrame;
  current_pressure : Q;
  end_visit_ts : Z;
  pending_visit : bool;
  self : S
}.

(* set end date for the visit, has to be within the dataset *)
Definition visit_end (ind : Z) (idx : list Z) : option Z :=
  match iloc_last idx with
  | None => None
  | Some last_ts =>
      if ind + Calendar.timedelta_days MAINTENANCE_DURATION <? last_ts
      then first_geq (ind + Calendar.timedelta_days MAINTENANCE_DURATION) idx
      else Some last_ts
  end.

(* Record visit ... pending_visit=True : the statements of the dispatch
   branch after the wind-speed check. *)
Definition record_visit (ind : Z) (st : Frame) : option Frame :=
  let df := loc_set_visit ind 1 (wind_df st) in
  let self' := set_n_visits (n_visits (self st) + 1) (self st) in
  match visit_end ind (labels df) with
  | None => None
  | Some e => Some (mkFrame df (current_pressure st) e true self')
  end.

(* ongoing visit flag *)
Definition flag_ongoing (ind : Z) (st : Frame) : Frame :=
  if pending_visit st
  then mkFrame (loc_set_visit ind 1 (wind_df st)) (current_pressure st)
               (end_visit_ts st) (pending_visit st) (self st)
  else st.

(* if the visit is over, remove the flag and put pressure to initial value *)
Definition close_visit (ind : Z) (st : Frame) : Frame :=
  if ind =? end_visit_ts st
  then mkFrame (wind_df st) INIT_PRES (end_visit_ts st) false (self st)
  else st.

(* wind_df.loc[ind,"pressure"]=current_pressure *)
Definition record_pressure (ind : Z) (st : Frame) : Frame :=
  mkFrame (loc_set_pressure ind (Some (current_pressure st)) (wind_df st))
          (current_pressure st) (end_visit_ts st) (pending_visit st) (self st).

(* The statements of the loop body after the dispatch branch. *)
Definition finish_step (ind : Z) (st : Frame) : Frame :=
  record_pressure ind (close_visit ind (flag_ongoing ind st)).

(* current_pressure-=DECLINE_RATE *)
Definition decline (st : Frame) : Frame :=
  mkFrame (wind_df st) (current_pressure st - DECLINE_RATE)%Q
          (end_visit_ts st) (pending_visit st) (self st).

(* send_vessel, as evaluated on the declined pressure *)
Definition send_vessel (row : Row) (st : Frame) : bool :=
  fix_pressure (self st) (current_pressure (decline st)) (index row)
               (Speed row) (Price row).

(* One iteration of [for ind,row in wind_df.iterrows()], [ind] being the
   label of [row].  [None] is an exception. *)
Definition body (row : Row) (st : Frame) : option Frame :=
  let ind := index row in
  let st1 := decline st in
  if negb (pending_visit st1) && send_vessel row st then
    (* No maintenance if constraints not satisfied *)
    if Qgtb (Speed row) MAX_WIND_SPEED
    then Some st1                                   (* continue *)
    else
      match record_visit ind st1 with
      | None => None
      | Some st2 => Some (finish_step ind st2)
      end
  else Some (finish_step ind st1).

Fixpoint iterrows (rows : list Row) (st : Frame) : option Frame :=
  match rows with
  | [] => Some st
  | row :: rest =>
      match body row st with
      | None => None
      | Some st' => iterrows rest st'
      end
  end.

(* The state at loop entry; [None] is the IndexError of [wind_df.index[-1]]
   on an empty frame. *)
Definition enter (this : S) (df : DataFrame) : option Frame :=
  let df := assign_visit 0 (assign_pressure None df) in
  match iloc_last (labels df) with
  | None => None
  | Some last_ts =>
      Some (mkFrame df INIT_PRES (last_ts + Calendar.timedelta_days 1) false this)
  end.

(* Returns the strategy object and the frame as the call leaves them. *)
Definition add_downtimes (this : S) (df : DataFrame) : option (S * DataFrame) :=
  match enter this df with
  | None => None
  | Some st0 =>
      match iterrows (wind_df st0) st0 with
      | None => None
      | Some st => Some (self st, wind_df st)
      end
  end.

(** ** The revenue calculator: [MaintenanceStrategy.calculate_revenue] *)

(* wind_df["pressure"]>=MIN_PRES ; false on NaN *)
Definition pressure_ok (r : Row) : bool :=
  match pressure r with
  | Some p => Qle_bool MIN_PRES p
  | None => false
  end.

(* (wind_df["pressure"]>=MIN_PRES)&(wind_df["visit"]==0) *)
Definition productive (r : Row) : bool := pressure_ok r && (visit r =? 0).

Definition column_sum (l : list Q) : Q := fold_right Qplus 0%Q l.

Definition calculate_revenue (this : S) (df : DataFrame) : Q :=
  let cost_visits := n_visits this * VESSEL_COST in
  (column_sum (map Revenue (filter productive df)) - inject_Z cost_visits)%Q.

End Simulator.

Arguments Frame : clear implicits.

(** ** Vocabulary of the specification *)

Section Vocabulary.

Context {S : Type} `{MaintenanceStrategy S}.

(* The loop state when the first [k] rows have been processed. *)
Definition state_before (this : S) (df : DataFrame) (k : nat) : option (Frame S) :=
  match enter this df with
  | None => None
  | Some st0 => iterrows (firstn k (wind_df st0)) st0
  end.

(* The [k]-th row as the loop sees it. *)
Definition row_at (df : DataFrame) (k : nat) : option Row :=
  nth_error (assign_visit 0 (assign_pressure None df)) k.

(* A visit starts at [row]: no visit is pending, the strategy asks for a
   vessel and the wind allows the dispatch. *)
Definition starts_visit (row : Row) (st : Frame S) : bool :=
  negb (pending_visit st) && send_vessel row st
  && negb (Qgtb (Speed row) MAX_WIND_SPEED).

(* A trigger is dropped at [row] by the wind-speed gate. *)
Definition drops_trigger (row : Row) (st : Frame S) : bool :=
  negb (pending_visit st) && send_vessel row st
  && Qgtb (Speed row) MAX_WIND_SPEED.

(* The end timestamp of the visit that is active during the iteration on
   [row]: the one pending from before, or the one of the visit the iteration
   starts. *)
Definition active_end (row : Row) (st : Frame S) : option Z :=
  if pending_visit st then Some (end_visit_ts st)
  else if starts_visit row st
       then visit_end (index row) (labels (wind_df st))
       else None.

(* Two loop states that differ in the strategy object only, the two objects
   deciding alike. *)
Definition same_but_self (st st' : Frame S) : Prop :=
  wind_df st' = wind_df st /\ current_pressure st' = current_pressure st /\
  end_visit_ts st' = end_visit_ts st /\ pending_visit st' = pending_visit st /\
  (forall p t w c, fix_pressure (self st') p t w c = fix_pressure (self st) p t w c).

End Vocabulary.

(* The end of a visit triggered at [t], in the words of the specification:
   the first record timestamp that is >= t + visit_duration, the last
   timestamp of the series when there is none. *)
Definition end_of_visit_spec (t : Z) (idx : list Z) : Z :=
  match find (fun x => t + Calendar.timedelta_days MAINTENANCE_DURATION <=? x) idx with
  | Some x => x
  | None => last idx 0
  end.

(* The revenue sum, in the words of the specification: a record counts when
   its pressure is at least [MIN_PRES] and its visit flag is false. *)
Fixpoint revenue_sum_spec (df : DataFrame) : Q :=
  match df with
  | [] => 0%Q
  | r :: rest =>
      match pressure r with
      | Some p =>
          if Qle_bool MIN_PRES p && (visit r =? 0)
          then (Revenue r + revenue_sum_spec rest)%Q
          else revenue_sum_spec rest
      | None => revenue_sum_spec rest
      end
  end.

(* The pressure after [n] steps of decline from [p], step by step as the loop
   computes it. *)
Definition declined (n : nat) (p : Q) : Q :=
  Nat.iter n (fun q => (q - DECLINE_RATE)%Q) p.

(** ** The decline in binary64

    The floats of the interpreter are binary64 numbers and
    [current_pressure-=DECLINE_RATE] rounds at every iteration.  The
    pressure of a run that takes no reset, in that arithmetic, next to the
    product form [init_pressure - (k+1) * decline_rate] evaluated in the
    same arithmetic. *)
Module Binary64.

Import PrimFloat.

Definition INIT_PRES : float := 2%float.

(* 0.0001 as the literal is read: the binary64 number nearest to 1/10000 *)
Definition DECLINE_RATE : float := 0x1.a36e2eb1c432dp-14%float.

(* current_pressure-=DECLINE_RATE, [n] times from [p] *)
Definition declined (n : nat) (p : float) : float :=
  Nat.iter n (fun q => sub q DECLINE_RATE) p.



End Binary64.

(* The columns the simulator reads: a frame with its annotations erased. *)
Definition input_columns (df : DataFrame) : DataFrame :=
  assign_visit 0 (assign_pressure None df).

(* Timestamps strictly increasing, as the series provider delivers them. *)
Definition increasing (idx : list Z) : Prop := StronglySorted Z.lt idx.

(* The same, as a test that computes. *)
Fixpoint increasingb (idx : list Z) : bool :=
  match idx with
  | [] => true
  | a :: l => forallb (Z.ltb a) l && increasingb l
  end.

(** ** The power curve and the input columns: [src/data_utils.py] *)

Module DataUtils.

(* The power curve as [load_power_curve] returns it: one row per entry,
   wind speed in column 0 and power in column 1.  Its float32 entries are
   rationals here, like every other float. *)
Definition PowerCurve : Type := list (Q * Q).

(* a < b on floats that are not NaN *)
Definition Qltb (a b : Q) : bool := negb (Qle_bool b a).

(* np.argmin over the rest of an array, [best] at index [best_i] being the
   least value so far: a later value replaces it only when it is smaller. *)
Fixpoint argmin_from (best_i : nat) (best : Q) (i : nat) (rest : list Q) : nat :=
  match rest with
  | [] => best_i
  | x :: rest' =>
      if Qltb x best
      then argmin_from i x (Datatypes.S i) rest'
      else argmin_from best_i best (Datatypes.S i) rest'
  end.

(* np.argmin: the index of the first occurrence of the least value; [None]
   is the ValueError of an empty array. *)
Definition argmin (a : list Q) : option nat :=
  match a with
  | [] => None
  | x :: rest => Some (argmin_from 0 x 1 rest)
  end.

(* np.abs(power_curve[:, 0] - wind_speed).  numpy computes the differences
   in float32; they are exact here, so that this model decides which entry
   is nearest without the rounding of the array arithmetic. *)
Definition distances (power_curve : PowerCurve) (wind_speed : Q) : list Q :=
  map (fun entry => Qabs (fst entry - wind_speed)) power_curve.

Definition calculate_power (power_curve : PowerCurve) (wind_speed : Q) : option Q :=
  match argmin (distances power_curve wind_speed) with
  | None => None
  | Some idx_foo => option_map snd (nth_error power_curve idx_foo)
  end.

(* index.duplicated(keep='first'), [seen] being the labels met so far: a
   label is marked when it has occurred before. *)
Fixpoint duplicated_after (seen : list Z) (idx : list Z) : list bool :=
  match idx with
  | [] => []
  | i :: rest => existsb (Z.eqb i) seen :: duplicated_after (i :: seen) rest
  end.

Definition duplicated (idx : list Z) : list bool := duplicated_after [] idx.

(* df[mask] : the rows whose mask is True, in their order *)
Fixpoint select_rows {A : Type} (mask : list bool) (rows : list A) : list A :=
  match mask, rows with
  | m :: mask', r :: rows' =>
      if m then r :: select_rows mask' rows' else select_rows mask' rows'
  | _, _ => []
  end.

(* wind_df[~wind_df.index.duplicated(keep='first')], a row being its label
   and its columns *)
Definition drop_duplicated {A : Type} (df : list (Z * A)) : list (Z * A) :=
  select_rows (map negb (duplicated (map fst df))) df.

(* wind_df["Speed (m/s)"].apply(lambda speed: calculate_power(power_curve, speed)):
   the lambda is called row by row, on no row of an empty column. *)
Fixpoint apply_calculate_power (power_curve : PowerCurve) (speeds : list Q)
  : option (list Q) :=
  match speeds with
  | [] => Some []
  | speed :: rest =>
      match calculate_power power_curve speed with
      | None => None
      | Some power =>
          match apply_calculate_power power_curve rest with
          | None => None
          | Some powers => Some (power :: powers)
          end
      end
  end.

(* A row of the joined frame before the power and revenue columns are
   added: timestamp, speed and price. *)
Record Joined : Type := mkJoined {
  j_index : Z;
  j_speed : Q;
  j_price : Q
}.

(* The "Power (MW)" column of [prepare_wind_df] and the "Revenue (Eur)"
   column of [generate_dataframe], on rows whose price the join supplied. *)
Definition power_and_revenue (power_curve : PowerCurve) (rows : list Joined)
  : option DataFrame :=
  match apply_calculate_power power_curve (map j_speed rows) with
  | None => None
  | Some powers =>
      Some (map (fun rp => generate_row (j_index (fst rp)) (j_speed (fst rp))
                             (j_price (fst rp)) (snd rp))
                (combine rows powers))
  end.

(* labels in weak order, as sort_index leaves them whatever it does with ties *)
Definition nondecreasing (idx : list Z) : Prop := StronglySorted Z.le idx.

(* a curve from 3 to 25 m/s, 0 MW below cut-in and 15 MW at rated speed *)
Definition sample_curve : PowerCurve :=
  [ (3, 0); (5, 1); (8, 5); (11, 12); (13, 15); (25, 15) ]%Q.

Definition sample_joined : list Joined :=
  [ mkJoined 0 4 10; mkJoined 3600 30 20; mkJoined 7200 (19 # 2) 30 ].

End DataUtils.

(** ** Sample data *)

Module Samples.

Definition HOUR : Z := 3600.

(* three hourly records, power 1, 2, 3 MW and price 10, 20, 30 Eur/MWh *)
Definition three_hours : DataFrame :=
  [ generate_row 0 3 10 1; generate_row HOUR 3 20 2; generate_row (2 * HOUR) 3 30 3 ].

(* the same hours, the first one with wind above MAX_WIND_SPEED *)
Definition windy_start : DataFrame :=
  [ generate_row 0 6 10 1; generate_row HOUR 3 20 2; generate_row (2 * HOUR) 3 30 3 ].

(* hourly records from the epoch, calm wind, unit power and price *)
Definition hourly (n : nat) : DataFrame :=
  map (fun k => generate_row (Z.of_nat k * HOUR) 3 1 1) (seq 0 n).

(* a frame that arrives with annotations of an earlier run *)
Definition annotated (df : DataFrame) : DataFrame :=
  map (fun r => set_visit 1 (set_pressure (Some 1%Q) r)) df.

(* a strategy that asks for a vessel as soon as the pressure has declined *)
Definition eager : ConditionMonitoring :=
  mkCondition 0 "Condition Monitoring" 2.

(* a strategy whose threshold is never reached in a short series *)
Definition idle : ConditionMonitoring :=
  mkCondition 0 "Condition Monitoring" 0.



End Samples.

(** * Properties of the frame operations *)

Lemma labels_loc_set_visit (ind v : Z) (df : DataFrame) :
  labels (loc_set_visit ind v df) = labels df.
Proof.
  unfold labels, loc_set_visit. rewrite map_map. apply map_ext.
  intro r. now destruct (index r =? ind).
Qed.

Lemma labels_loc_set_pressure (ind : Z) (p : option Q) (df : DataFrame) :
  labels (loc_set_pressure ind p df) = labels df.
Proof.
  unfold labels, loc_set_pressure. rewrite map_map. apply map_ext.
  intro r. now destruct (index r =? ind).
Qed.

Lemma labels_input_columns (df : DataFrame) :
  labels (input_columns df) = labels df.
Proof.
  unfold labels, input_columns, assign_visit, assign_pressure.
  now rewrite !map_map.
Qed.

Lemma input_columns_loc_set_visit (ind v : Z) (df : DataFrame) :
  input_columns (loc_set_visit ind v df) = input_columns df.
Proof.
  unfold input_columns, assign_visit, assign_pressure, loc_set_visit.
  rewrite !map_map. apply map_ext. intro r. now destruct (index r =? ind).
Qed.

Lemma input_columns_loc_set_pressure (ind : Z) (p : option Q) (df : DataFrame) :
  input_columns (loc_set_pressure ind p df) = input_columns df.
Proof.
  unfold input_columns, assign_visit, assign_pressure, loc_set_pressure.
  rewrite !map_map. apply map_ext. intro r. now destruct (index r =? ind).
Qed.

Lemma input_columns_idempotent (df : DataFrame) :
  input_columns (input_columns df) = input_columns df.
Proof.
  unfold input_columns, assign_visit, assign_pressure.
  rewrite !map_map. now apply map_ext.
Qed.

Lemma nth_loc_set_visit (ind v : Z) (df : DataFrame) (k : nat) :
  nth_error (loc_set_visit ind v df) k =
  option_map (fun r => if index r =? ind then set_visit v r else r) (nth_error df k).
Proof. apply nth_error_map. Qed.

Lemma nth_loc_set_pressure (ind : Z) (p : option Q) (df : DataFrame) (k : nat) :
  nth_error (loc_set_pressure ind p df) k =
  option_map (fun r => if index r =? ind then set_pressure p r else r) (nth_error df k).
Proof. apply nth_error_map. Qed.

Lemma labels_split (df1 df2 : DataFrame) (r : Row) :
  labels (df1 ++ r :: df2) = labels df1 ++ index r :: labels df2.
Proof. unfold labels. now rewrite map_app. Qed.

Lemma nth_labels (df : DataFrame) (k : nat) :
  nth_error (labels df) k = option_map index (nth_error df k).
Proof. apply nth_error_map. Qed.

(** ** Positions in an index *)

Lemma iloc_last_In (idx : list Z) (x : Z) :
  iloc_last idx = Some x -> In x idx.
Proof.
  destruct idx as [|a l]; [discriminate|].
  intro E. injection E as <-. revert a.
  induction l as [|b l IH]; intro a; [now left|].
  right. change (last (a :: b :: l) 0) with (last (b :: l) 0). apply IH.
Qed.

Lemma iloc_last_nonempty (idx : list Z) :
  idx <> [] -> exists x, iloc_last idx = Some x.
Proof. destruct idx; [congruence|]. intros _. eexists. reflexivity. Qed.

Lemma first_geq_exists (x y : Z) (idx : list Z) :
  In y idx -> x <= y -> exists e, first_geq x idx = Some e.
Proof.
  unfold first_geq. intros Hin Hle.
  assert (Hf : In y (filter (fun i => x <=? i) idx)).
  { apply filter_In. split; [assumption|]. now apply Z.leb_le. }
  destruct (filter (fun i => x <=? i) idx); [contradiction|].
  eexists. reflexivity.
Qed.

Lemma first_geq_find (x : Z) (idx : list Z) :
  first_geq x idx = find (fun i => x <=? i) idx.
Proof.
  unfold first_geq. induction idx as [|a l IH]; [reflexivity|].
  simpl. destruct (x <=? a); [reflexivity|exact IH].
Qed.

Lemma find_In_geq (x e : Z) (idx : list Z) :
  find (fun i => x <=? i) idx = Some e -> In e idx /\ x <= e.
Proof.
  intro E. apply find_some in E. destruct E as [Hin Hle].
  split; [assumption|]. now apply Z.leb_le.
Qed.

(* In an increasing index every label is at most the last one. *)
Lemma increasing_le_last (idx : list Z) (x : Z) :
  increasing idx -> In x idx -> x <= last idx 0.
Proof.
  unfold increasing. intro Hs. revert x.
  induction Hs as [|a l Hs IH Hall]; intro x; [contradiction|].
  intros [<-|Hin].
  - destruct l as [|b l']; [simpl; lia|].
    assert (Hb : b <= last (b :: l') 0) by (apply IH; now left).
    rewrite Forall_forall in Hall. specialize (Hall b (or_introl eq_refl)).
    change (last (a :: b :: l') 0) with (last (b :: l') 0). lia.
  - destruct l as [|b l']; [contradiction|].
    change (last (a :: b :: l') 0) with (last (b :: l') 0). now apply IH.
Qed.

Lemma increasing_NoDup (idx : list Z) : increasing idx -> NoDup idx.
Proof.
  unfold increasing. induction 1 as [|a l Hs IH Hall]; constructor; [|assumption].
  intro Hin. rewrite Forall_forall in Hall. specialize (Hall a Hin). lia.
Qed.

(** * Properties of one iteration *)

Section Walk.

Context {S : Type} `{MaintenanceStrategy S}.

(** ** The four ways through the loop body *)

Lemma body_pending (row : Row) (st : Frame S) :
  pending_visit st = true ->
  body row st = Some (finish_step (index row) (decline st)).
Proof. intro Hp. unfold body. simpl. now rewrite Hp. Qed.

Lemma body_quiet (row : Row) (st : Frame S) :
  send_vessel row st = false ->
  body row st = Some (finish_step (index row) (decline st)).
Proof. intro Hs. unfold body. simpl. rewrite Hs. now rewrite andb_false_r. Qed.

Lemma body_dropped (row : Row) (st : Frame S) :
  drops_trigger row st = true ->
  body row st = Some (decline st).
Proof.
  unfold drops_trigger, body. simpl. intro Hd.
  apply andb_prop in Hd. destruct Hd as [Hd Hw].
  now rewrite Hd, Hw.
Qed.

Lemma body_started (row : Row) (st : Frame S) :
  starts_visit row st = true ->
  body row st =
  match record_visit (index row) (decline st) with
  | None => None
  | Some st2 => Some (finish_step (index row) st2)
  end.
Proof.
  unfold starts_visit, body. simpl. intro Hd.
  apply andb_prop in Hd. destruct Hd as [Hd Hw].
  apply negb_true_iff in Hw. now rewrite Hd, Hw.
Qed.

(* Exactly one of the four applies. *)
Lemma body_cases (row : Row) (st : Frame S) :
  pending_visit st = true \/
  (pending_visit st = false /\ send_vessel row st = false) \/
  drops_trigger row st = true \/
  starts_visit row st = true.
Proof.
  unfold drops_trigger, starts_visit.
  destruct (pending_visit st); [now left|].
  destruct (send_vessel row st); [|right; left; now split].
  destruct (Qgtb (Speed row) MAX_WIND_SPEED); simpl; auto.
Qed.

(** ** The index and the input columns are never written *)

Lemma labels_finish_step (ind : Z) (st : Frame S) :
  labels (wind_df (finish_step ind st)) = labels (wind_df st).
Proof.
  unfold finish_step, record_pressure, close_visit, flag_ongoing. simpl.
  rewrite labels_loc_set_pressure.
  destruct (pending_visit st); simpl;
    [destruct (ind =? end_visit_ts st); simpl; apply labels_loc_set_visit|].
  now destruct (ind =? end_visit_ts st).
Qed.

Lemma input_columns_finish_step (ind : Z) (st : Frame S) :
  input_columns (wind_df (finish_step ind st)) = input_columns (wind_df st).
Proof.
  unfold finish_step, record_pressure, close_visit, flag_ongoing. simpl.
  rewrite input_columns_loc_set_pressure.
  destruct (pending_visit st); simpl;
    [destruct (ind =? end_visit_ts st); simpl; apply input_columns_loc_set_visit|].
  now destruct (ind =? end_visit_ts st).
Qed.

Lemma record_visit_inv (ind : Z) (st st' : Frame S) :
  record_visit ind st = Some st' ->
  exists e,
    visit_end ind (labels (wind_df st)) = Some e /\
    st' = mkFrame (loc_set_visit ind 1 (wind_df st)) (current_pressure st) e true
                  (set_n_visits (n_visits (self st) + 1) (self st)).
Proof.
  unfold record_visit. rewrite labels_loc_set_visit.
  destruct (visit_end ind (labels (wind_df st))) as [e|]; [|discriminate].
  intro E. injection E as <-. now exists e.
Qed.

Lemma input_columns_body (row : Row) (st st' : Frame S) :
  body row st = Some st' ->
  input_columns (wind_df st') = input_columns (wind_df st).
Proof.
  destruct (body_cases row st) as [Hc|[[_ Hc]|[Hc|Hc]]].
  - rewrite (body_pending _ _ Hc). intro E. injection E as <-.
    now rewrite input_columns_finish_step.
  - rewrite (body_quiet _ _ Hc). intro E. injection E as <-.
    now rewrite input_columns_finish_step.
  - rewrite (body_dropped _ _ Hc). intro E. now injection E as <-.
  - rewrite (body_started _ _ Hc).
    destruct (record_visit (index row) (decline st)) as [st2|] eqn:E2; [|discriminate].
    intro E. injection E as <-. rewrite input_columns_finish_step.
    apply record_visit_inv in E2. destruct E2 as (e & _ & ->). simpl.
    apply input_columns_loc_set_visit.
Qed.

Lemma labels_of_input_columns (df1 df2 : DataFrame) :
  input_columns df1 = input_columns df2 -> labels df1 = labels df2.
Proof.
  intro E. rewrite <- (labels_input_columns df1), <- (labels_input_columns df2).
  now rewrite E.
Qed.

Lemma labels_body (row : Row) (st st' : Frame S) :
  body row st = Some st' -> labels (wind_df st') = labels (wind_df st).
Proof. intro E. apply labels_of_input_columns. exact (input_columns_body _ _ _ E). Qed.

Lemma input_columns_iterrows (rows : list Row) (st st' : Frame S) :
  iterrows rows st = Some st' ->
  input_columns (wind_df st') = input_columns (wind_df st).
Proof.
  revert st. induction rows as [|row rest IH]; intros st E; simpl in E.
  - now injection E as <-.
  - destruct (body row st) as [st1|] eqn:E1; [|discriminate].
    rewrite (IH _ E). exact (input_columns_body _ _ _ E1).
Qed.

Lemma labels_iterrows (rows : list Row) (st st' : Frame S) :
  iterrows rows st = Some st' -> labels (wind_df st') = labels (wind_df st).
Proof. intro E. apply labels_of_input_columns. exact (input_columns_iterrows _ _ _ E). Qed.

(** ** The walk never raises on a frame that has rows *)

Lemma visit_end_total (ind : Z) (idx : list Z) :
  idx <> [] -> exists e, visit_end ind idx = Some e /\ In e idx.
Proof.
  intro Hne. unfold visit_end.
  destruct (iloc_last_nonempty idx Hne) as [l El]. rewrite El.
  pose proof (iloc_last_In _ _ El) as Hl.
  destruct (ind + Calendar.timedelta_days MAINTENANCE_DURATION <? l) eqn:Hlt.
  - apply Z.ltb_lt in Hlt.
    destruct (first_geq_exists (ind + Calendar.timedelta_days MAINTENANCE_DURATION) l idx)
      as [e Ee]; [assumption|lia|].
    exists e. split; [assumption|].
    rewrite first_geq_find in Ee. now apply find_In_geq in Ee.
  - now exists l.
Qed.

Lemma body_total (row : Row) (st : Frame S) :
  labels (wind_df st) <> [] -> exists st', body row st = Some st'.
Proof.
  intro Hne.
  destruct (body_cases row st) as [Hc|[[_ Hc]|[Hc|Hc]]].
  - rewrite (body_pending _ _ Hc). now eexists.
  - rewrite (body_quiet _ _ Hc). now eexists.
  - rewrite (body_dropped _ _ Hc). now eexists.
  - rewrite (body_started _ _ Hc). unfold record_visit.
    rewrite labels_loc_set_visit. simpl.
    destruct (visit_end_total (index row) _ Hne) as (e & -> & _). now eexists.
Qed.

Lemma iterrows_total (rows : list Row) (st : Frame S) :
  labels (wind_df st) <> [] -> exists st', iterrows rows st = Some st'.
Proof.
  revert st. induction rows as [|row rest IH]; intros st Hne; simpl.
  - now eexists.
  - destruct (body_total row st Hne) as [st1 E1]. rewrite E1.
    apply IH. now rewrite (labels_body _ _ _ E1).
Qed.

Lemma enter_inv (this : S) (df : DataFrame) (st0 : Frame S) :
  enter this df = Some st0 ->
  df <> [] /\
  st0 = mkFrame (input_columns df) INIT_PRES
                (last (labels df) 0 + Calendar.timedelta_days 1) false this.
Proof.
  unfold enter. fold (input_columns df). rewrite labels_input_columns.
  destruct df as [|r df]; [discriminate|]. simpl iloc_last.
  intro E. injection E as <-. split; [discriminate|reflexivity].
Qed.

Lemma enter_total (this : S) (df : DataFrame) :
  df <> [] ->
  enter this df =
  Some (mkFrame (input_columns df) INIT_PRES
                (last (labels df) 0 + Calendar.timedelta_days 1) false this).
Proof.
  unfold enter. fold (input_columns df). rewrite labels_input_columns.
  destruct df as [|r df]; [congruence|]. reflexivity.
Qed.

Lemma add_downtimes_total (this : S) (df : DataFrame) :
  df <> [] -> exists s out, add_downtimes this df = Some (s, out).
Proof.
  intro Hne. unfold add_downtimes. rewrite (enter_total this df Hne).
  cbv beta iota. simpl wind_df at 1.
  destruct (iterrows_total (input_columns df)
              (mkFrame (input_columns df) INIT_PRES
                 (last (labels df) 0 + Calendar.timedelta_days 1) false this))
    as [st E].
  - simpl. rewrite labels_input_columns. destruct df; [congruence|discriminate].
  - rewrite E. now eexists; eexists.
Qed.

End Walk.

(** * Which rows an iteration writes *)

Section Rows.

Context {S : Type} `{MaintenanceStrategy S}.

Lemma wind_df_close_visit (ind : Z) (st : Frame S) :
  wind_df (close_visit ind st) = wind_df st.
Proof. unfold close_visit. now destruct (ind =? end_visit_ts st). Qed.

Lemma wind_df_finish_step (ind : Z) (st : Frame S) :
  wind_df (finish_step ind st) =
  loc_set_pressure ind
    (Some (current_pressure (close_visit ind (flag_ongoing ind st))))
    (if pending_visit st then loc_set_visit ind 1 (wind_df st) else wind_df st).
Proof.
  unfold finish_step, record_pressure. simpl. rewrite wind_df_close_visit.
  unfold flag_ongoing. now destruct (pending_visit st).
Qed.

(* A row with another label is left as it is. *)
Lemma nth_finish_step_other (ind : Z) (st : Frame S) (k : nat) (r : Row) :
  nth_error (wind_df st) k = Some r -> index r <> ind ->
  nth_error (wind_df (finish_step ind st)) k = Some r.
Proof.
  intros Hk Hne. apply Z.eqb_neq in Hne.
  rewrite wind_df_finish_step, nth_loc_set_pressure.
  destruct (pending_visit st).
  - rewrite nth_loc_set_visit, Hk. simpl. rewrite Hne. simpl. now rewrite Hne.
  - rewrite Hk. simpl. now rewrite Hne.
Qed.

(* A row with the label of the step gets the flag of an ongoing visit and
   the pressure the step ends with. *)
Lemma nth_finish_step_self (ind : Z) (st : Frame S) (k : nat) (r : Row) :
  nth_error (wind_df st) k = Some r -> index r = ind ->
  nth_error (wind_df (finish_step ind st)) k =
  Some (set_pressure (Some (current_pressure (finish_step ind st)))
          (if pending_visit st then set_visit 1 r else r)).
Proof.
  intros Hk He. apply Z.eqb_eq in He.
  rewrite wind_df_finish_step, nth_loc_set_pressure.
  destruct (pending_visit st).
  - rewrite nth_loc_set_visit, Hk. simpl. rewrite He. simpl. now rewrite He.
  - rewrite Hk. simpl. now rewrite He.
Qed.

Lemma nth_body_other (row : Row) (st st' : Frame S) (k : nat) (r : Row) :
  body row st = Some st' ->
  nth_error (wind_df st) k = Some r -> index r <> index row ->
  nth_error (wind_df st') k = Some r.
Proof.
  intros E Hk Hne.
  destruct (body_cases row st) as [Hc|[[_ Hc]|[Hc|Hc]]].
  - rewrite (body_pending _ _ Hc) in E. injection E as <-.
    now apply nth_finish_step_other.
  - rewrite (body_quiet _ _ Hc) in E. injection E as <-.
    now apply nth_finish_step_other.
  - rewrite (body_dropped _ _ Hc) in E. now injection E as <-.
  - rewrite (body_started _ _ Hc) in E.
    destruct (record_visit (index row) (decline st)) as [st2|] eqn:E2; [|discriminate].
    injection E as <-. apply nth_finish_step_other; [|assumption].
    apply record_visit_inv in E2. destruct E2 as (e & _ & ->). simpl.
    rewrite nth_loc_set_visit, Hk. simpl.
    apply Z.eqb_neq in Hne. now rewrite Hne.
Qed.

Lemma nth_iterrows_other (rows : list Row) (st st' : Frame S) (k : nat) (r : Row) :
  iterrows rows st = Some st' ->
  nth_error (wind_df st) k = Some r -> ~ In (index r) (labels rows) ->
  nth_error (wind_df st') k = Some r.
Proof.
  revert st. induction rows as [|row rest IH]; intros st E Hk Hnin; simpl in E.
  - now injection E as <-.
  - destruct (body row st) as [st1|] eqn:E1; [|discriminate].
    apply (IH st1 E).
    + apply (nth_body_other row st); [assumption|assumption|].
      intro Heq. apply Hnin. left. now symmetry.
    + intro Hin. apply Hnin. now right.
Qed.

(* The visit flag is only ever raised. *)
Lemma visit_finish_step_keeps (ind : Z) (st : Frame S) (k : nat) (r : Row) :
  nth_error (wind_df st) k = Some r -> visit r = 1 ->
  exists r', nth_error (wind_df (finish_step ind st)) k = Some r' /\
             visit r' = 1 /\ index r' = index r.
Proof.
  intros Hk Hv. destruct (Z.eq_dec (index r) ind) as [He|Hne].
  - rewrite (nth_finish_step_self ind st k r Hk He).
    eexists. split; [reflexivity|]. now destruct (pending_visit st).
  - rewrite (nth_finish_step_other ind st k r Hk Hne). now exists r.
Qed.

Lemma visit_loc_set_keeps (ind : Z) (df : DataFrame) (k : nat) (r : Row) :
  nth_error df k = Some r -> visit r = 1 ->
  exists r', nth_error (loc_set_visit ind 1 df) k = Some r' /\
             visit r' = 1 /\ index r' = index r.
Proof.
  intros Hk Hv. rewrite nth_loc_set_visit, Hk. simpl.
  destruct (index r =? ind); eexists; (split; [reflexivity|now split]).
Qed.

Lemma visit_body_keeps (row : Row) (st st' : Frame S) (k : nat) (r : Row) :
  body row st = Some st' ->
  nth_error (wind_df st) k = Some r -> visit r = 1 ->
  exists r', nth_error (wind_df st') k = Some r' /\
             visit r' = 1 /\ index r' = index r.
Proof.
  intros E Hk Hv.
  destruct (body_cases row st) as [Hc|[[_ Hc]|[Hc|Hc]]].
  - rewrite (body_pending _ _ Hc) in E. injection E as <-.
    now apply visit_finish_step_keeps.
  - rewrite (body_quiet _ _ Hc) in E. injection E as <-.
    now apply visit_finish_step_keeps.
  - rewrite (body_dropped _ _ Hc) in E. injection E as <-. now exists r.
  - rewrite (body_started _ _ Hc) in E.
    destruct (record_visit (index row) (decline st)) as [st2|] eqn:E2; [|discriminate].
    injection E as <-.
    apply record_visit_inv in E2. destruct E2 as (e & _ & ->).
    destruct (visit_loc_set_keeps (index row) (wind_df st) k r Hk Hv)
      as (r1 & Hk1 & Hv1 & Hi1).
    destruct (visit_finish_step_keeps (index row)
                (mkFrame (loc_set_visit (index row) 1 (wind_df (decline st)))
                   (current_pressure (decline st)) e true
                   (set_n_visits (n_visits (self (decline st)) + 1) (self (decline st))))
                k r1 Hk1 Hv1) as (r2 & Hk2 & Hv2 & Hi2).
    exists r2. split; [assumption|]. split; [assumption|congruence].
Qed.

Lemma visit_iterrows_keeps (rows : list Row) (st st' : Frame S) (k : nat) (r : Row) :
  iterrows rows st = Some st' ->
  nth_error (wind_df st) k = Some r -> visit r = 1 ->
  exists r', nth_error (wind_df st') k = Some r' /\
             visit r' = 1 /\ index r' = index r.
Proof.
  revert st r. induction rows as [|row rest IH]; intros st r E Hk Hv; simpl in E.
  - injection E as <-. now exists r.
  - destruct (body row st) as [st1|] eqn:E1; [|discriminate].
    destruct (visit_body_keeps row st st1 k r E1 Hk Hv) as (r1 & Hk1 & Hv1 & Hi1).
    destruct (IH st1 r1 E Hk1 Hv1) as (r2 & Hk2 & Hv2 & Hi2).
    exists r2. split; [assumption|]. split; [assumption|congruence].
Qed.

End Rows.

(** * Runs of the simulator, step by step *)

Lemma firstn_snoc {A : Type} (l : list A) (k : nat) (x : A) :
  nth_error l k = Some x -> firstn (Datatypes.S k) l = firstn k l ++ [x].
Proof.
  revert k. induction l as [|a l IH]; intros [|k] E; simpl in *; try discriminate.
  - now injection E as ->.
  - f_equal. now apply IH.
Qed.

Lemma split_at {A : Type} (l : list A) (k : nat) (x : A) :
  nth_error l k = Some x -> l = firstn k l ++ x :: skipn (Datatypes.S k) l.
Proof.
  revert k. induction l as [|a l IH]; intros [|k] E; simpl in *; try discriminate.
  - now injection E as ->.
  - f_equal. now apply IH.
Qed.

Lemma NoDup_split_at (idx : list Z) (l1 l2 : list Z) (x : Z) :
  NoDup idx -> idx = l1 ++ x :: l2 -> ~ In x l1 /\ ~ In x l2.
Proof.
  intros Hnd ->. apply NoDup_remove_2 in Hnd.
  split; intro Hin; apply Hnd; apply in_or_app; auto.
Qed.

Section Runs.

Context {S : Type} `{MaintenanceStrategy S}.

Lemma iterrows_app (rows1 rows2 : list Row) (st : Frame S) :
  iterrows (rows1 ++ rows2) st =
  match iterrows rows1 st with
  | None => None
  | Some st1 => iterrows rows2 st1
  end.
Proof.
  revert st. induction rows1 as [|row rest IH]; intro st; simpl; [reflexivity|].
  destruct (body row st); [apply IH|reflexivity].
Qed.

Lemma iterrows_cons (row : Row) (rest : list Row) (st : Frame S) :
  iterrows (row :: rest) st =
  match body row st with
  | None => None
  | Some st' => iterrows rest st'
  end.
Proof. reflexivity. Qed.

Lemma state_before_step (this : S) (df : DataFrame) (k : nat) (row : Row) (st : Frame S) :
  row_at df k = Some row ->
  state_before this df k = Some st ->
  state_before this df (Datatypes.S k) = body row st.
Proof.
  unfold state_before, row_at. intros Hr Hs.
  destruct (enter this df) as [st0|] eqn:E0; [|discriminate].
  destruct (enter_inv _ _ _ E0) as [_ ->]. simpl wind_df in *.
  fold (input_columns df) in Hr.
  rewrite (firstn_snoc _ _ _ Hr), iterrows_app, Hs. simpl.
  now destruct (body row st).
Qed.

(* Every run passes through the state before its [k]-th row, the iteration
   on that row, and the rest of the rows. *)
Lemma run_through (this : S) (df : DataFrame) (k : nat) (row : Row) :
  row_at df k = Some row ->
  exists st st1 stf,
    state_before this df k = Some st /\
    body row st = Some st1 /\
    iterrows (skipn (Datatypes.S k) (input_columns df)) st1 = Some stf /\
    add_downtimes this df = Some (self stf, wind_df stf).
Proof.
  intro Hr. unfold row_at in Hr. fold (input_columns df) in Hr.
  assert (Hne : df <> []).
  { intros ->. destruct k; discriminate. }
  unfold state_before, add_downtimes. rewrite (enter_total this df Hne).
  cbv beta iota. simpl wind_df.
  set (st0 := mkFrame (input_columns df) INIT_PRES
                (last (labels df) 0 + Calendar.timedelta_days 1) false this).
  assert (Hl0 : labels (wind_df st0) <> []).
  { simpl. rewrite labels_input_columns. destruct df; [congruence|discriminate]. }
  destruct (iterrows_total (firstn k (input_columns df)) st0 Hl0) as [st Est].
  assert (Hl : labels (wind_df st) <> []) by now rewrite (labels_iterrows _ _ _ Est).
  destruct (body_total row st Hl) as [st1 E1].
  assert (Hl1 : labels (wind_df st1) <> []) by now rewrite (labels_body _ _ _ E1).
  destruct (iterrows_total (skipn (Datatypes.S k) (input_columns df)) st1 Hl1) as [stf Ef].
  exists st, st1, stf. repeat split; try assumption.
  rewrite (split_at _ _ _ Hr) at 1.
  now rewrite iterrows_app, Est, iterrows_cons, E1, Ef.
Qed.

Lemma state_before_labels (this : S) (df : DataFrame) (k : nat) (st : Frame S) :
  state_before this df k = Some st -> labels (wind_df st) = labels df.
Proof.
  unfold state_before. destruct (enter this df) as [st0|] eqn:E0; [|discriminate].
  destruct (enter_inv _ _ _ E0) as [_ ->]. simpl wind_df. intro E.
  rewrite (labels_iterrows _ _ _ E). simpl. apply labels_input_columns.
Qed.

Lemma row_at_label (df : DataFrame) (k : nat) (row : Row) :
  row_at df k = Some row -> nth_error (labels df) k = Some (index row).
Proof.
  unfold row_at. fold (input_columns df). intro Hr.
  rewrite <- (labels_input_columns df), nth_labels, Hr. reflexivity.
Qed.

Lemma row_at_fresh (df : DataFrame) (k : nat) (row : Row) :
  row_at df k = Some row -> pressure row = None /\ visit row = 0.
Proof.
  unfold row_at, assign_visit, assign_pressure. rewrite map_map, nth_error_map.
  destruct (nth_error df k); [|discriminate]. simpl.
  intro E. injection E as <-. now split.
Qed.

(* With distinct labels, the rows before the [k]-th do not write it ... *)
Lemma row_untouched_before (this : S) (df : DataFrame) (k : nat) (row : Row) (st : Frame S) :
  NoDup (labels df) ->
  row_at df k = Some row ->
  state_before this df k = Some st ->
  nth_error (wind_df st) k = Some row.
Proof.
  intros Hnd Hr. pose proof Hr as Hr'.
  unfold row_at in Hr. fold (input_columns df) in Hr.
  unfold state_before.
  destruct (enter this df) as [st0|] eqn:E0; [|discriminate].
  destruct (enter_inv _ _ _ E0) as [_ ->]. simpl wind_df. intro E.
  apply (nth_iterrows_other _ _ _ k row E); [exact Hr|].
  rewrite <- (labels_input_columns df) in Hnd.
  pose proof (f_equal labels (split_at _ _ _ Hr)) as Hsplit.
  rewrite labels_split in Hsplit.
  now destruct (NoDup_split_at _ _ _ _ Hnd Hsplit).
Qed.

(* ... and neither do the rows after it. *)
Lemma row_settled_after (df : DataFrame) (k : nat) (row r : Row) (st1 stf : Frame S) :
  NoDup (labels df) ->
  row_at df k = Some row ->
  iterrows (skipn (Datatypes.S k) (input_columns df)) st1 = Some stf ->
  nth_error (wind_df st1) k = Some r -> index r = index row ->
  nth_error (wind_df stf) k = Some r.
Proof.
  intros Hnd Hr E Hk Hi.
  unfold row_at in Hr. fold (input_columns df) in Hr.
  apply (nth_iterrows_other _ _ _ k r E Hk). rewrite Hi.
  rewrite <- (labels_input_columns df) in Hnd.
  pose proof (f_equal labels (split_at _ _ _ Hr)) as Hsplit.
  rewrite labels_split in Hsplit.
  now destruct (NoDup_split_at _ _ _ _ Hnd Hsplit).
Qed.

End Runs.

(** * The fields of the loop state after an iteration *)

Section Fields.

Context {S : Type} `{MaintenanceStrategy S}.

Lemma self_finish_step (ind : Z) (st : Frame S) :
  self (finish_step ind st) = self st.
Proof.
  unfold finish_step, record_pressure, close_visit, flag_ongoing. simpl.
  destruct (pending_visit st); simpl; now destruct (ind =? end_visit_ts st).
Qed.

Lemma end_finish_step (ind : Z) (st : Frame S) :
  end_visit_ts (finish_step ind st) = end_visit_ts st.
Proof.
  unfold finish_step, record_pressure, close_visit, flag_ongoing. simpl.
  destruct (pending_visit st); simpl; now destruct (ind =? end_visit_ts st).
Qed.

Lemma pending_finish_step (ind : Z) (st : Frame S) :
  pending_visit (finish_step ind st) =
  pending_visit st && negb (ind =? end_visit_ts st).
Proof.
  unfold finish_step, record_pressure, close_visit, flag_ongoing. simpl.
  destruct (pending_visit st) eqn:Hp; simpl;
    destruct (ind =? end_visit_ts st); simpl; auto.
Qed.

Lemma pressure_finish_step (ind : Z) (st : Frame S) :
  current_pressure (finish_step ind st) =
  if ind =? end_visit_ts st then INIT_PRES else current_pressure st.
Proof.
  unfold finish_step, record_pressure, close_visit, flag_ongoing. simpl.
  destruct (pending_visit st); simpl; now destruct (ind =? end_visit_ts st).
Qed.

End Fields.

(** * The claims about the visit state machine *)

Section VisitStateMachine.

Context {S : Type} `{MaintenanceStrategy S}.

(** C7 -- visit exclusivity.  At every step of a run that finds a visit
    pending, no visit starts: the strategy object, hence its visit counter,
    and the end timestamp of the visit leave the step unchanged, and the
    visit stays pending unless the row carries that end timestamp. *)
Theorem pending_visit_excludes_new_visit
    (this : S) (df : DataFrame) (k : nat) (row : Row) (st : Frame S) :
  row_at df k = Some row ->
  state_before this df k = Some st ->
  pending_visit st = true ->
  starts_visit row st = false /\
  exists st1,
    state_before this df (Datatypes.S k) = Some st1 /\
    self st1 = self st /\
    n_visits (self st1) = n_visits (self st) /\
    end_visit_ts st1 = end_visit_ts st /\
    pending_visit st1 = negb (index row =? end_visit_ts st).
Proof.
  intros Hr Hs Hp. split.
  - unfold starts_visit. now rewrite Hp.
  - exists (finish_step (index row) (decline st)).
    rewrite (state_before_step this df k row st Hr Hs), (body_pending row st Hp).
    rewrite self_finish_step, end_finish_step, pending_finish_step. simpl.
    rewrite Hp. repeat split.
Qed.

(** C3 -- wind gate.  When the strategy asks for a vessel at a step where
    no visit is pending and the wind speed exceeds MAX_WIND_SPEED, the step
    changes nothing but the declining pressure: no visit is pending after
    it, the visit counter and the frame are as before, and the record ends
    the run with its visit flag at 0.  At any step without a pending visit
    where the strategy does not ask for a vessel, no visit starts either. *)
Theorem wind_gate_drops_trigger
    (this : S) (df : DataFrame) (k : nat) (row : Row) (st : Frame S) :
  NoDup (labels df) ->
  row_at df k = Some row ->
  state_before this df k = Some st ->
  pending_visit st = false ->
  send_vessel row st = true ->
  Qgtb (Speed row) MAX_WIND_SPEED = true ->
  (exists st1 s out r,
     state_before this df (Datatypes.S k) = Some st1 /\
     pending_visit st1 = false /\
     self st1 = self st /\
     n_visits (self st1) = n_visits (self st) /\
     end_visit_ts st1 = end_visit_ts st /\
     wind_df st1 = wind_df st /\
     add_downtimes this df = Some (s, out) /\
     nth_error out k = Some r /\ visit r = 0) /\
  (forall (row' : Row) (st' st'' : Frame S),
     pending_visit st' = false ->
     send_vessel row' st' = false ->
     body row' st' = Some st'' ->
     pending_visit st'' = false /\ self st'' = self st' /\
     wind_df st'' =
     loc_set_pressure (index row') (Some (current_pressure st'')) (wind_df st')).
Proof.
  intros Hnd Hr Hs Hp Hsend Hwind. split.
  - assert (Hd : drops_trigger row st = true).
    { unfold drops_trigger. now rewrite Hp, Hsend, Hwind. }
    destruct (run_through this df k row Hr) as (st' & st1 & stf & Hs' & E1 & Ef & Hrun).
    rewrite Hs in Hs'. injection Hs' as <-.
    rewrite (body_dropped row st Hd) in E1. injection E1 as <-.
    exists (decline st), (self stf), (wind_df stf), row.
    rewrite (state_before_step this df k row st Hr Hs), (body_dropped row st Hd).
    repeat split; try assumption.
    + apply (row_settled_after df k row row (decline st) stf Hnd Hr Ef); [|reflexivity].
      exact (row_untouched_before this df k row st Hnd Hr Hs).
    + now destruct (row_at_fresh df k row Hr).
  - intros row' st' st'' Hp' Hq E. rewrite (body_quiet row' st' Hq) in E.
    injection E as <-.
    rewrite pending_finish_step, self_finish_step, wind_df_finish_step. simpl.
    rewrite Hp'. repeat split.
Qed.

End VisitStateMachine.

(* The eager strategy on the frame whose first hour is windy: the trigger of
   the first hour is dropped, the visit starts in the second hour and is
   pending when the third is reached. *)
Lemma pending_visit_excludes_new_visit_witness :
  exists (row : Row) (st st1 : Frame ConditionMonitoring),
    row_at Samples.windy_start 2 = Some row /\
    state_before Samples.eager Samples.windy_start 2 = Some st /\
    pending_visit st = true /\
    starts_visit row st = false /\
    state_before Samples.eager Samples.windy_start 3 = Some st1 /\
    n_visits (self st1) = n_visits (self st) /\
    end_visit_ts st1 = end_visit_ts st.
Proof.
  eexists. eexists.
  assert (Hr : row_at Samples.windy_start 2 =
               Some (mkRow 7200 3 30 3 (3 * 30)%Q None 0)) by reflexivity.
  pose proof (fun st Hs Hp =>
    pending_visit_excludes_new_visit Samples.eager Samples.windy_start 2 _ st Hr Hs Hp)
    as T.
  specialize (T _ ltac:(vm_compute; reflexivity) eq_refl).
  destruct T as (Hn & st1 & Hs1 & _ & Hv & He & _).
  exists st1. split; [exact Hr|]. split; [vm_compute; reflexivity|].
  split; [reflexivity|]. split; [exact Hn|]. split; [exact Hs1|].
  split; [exact Hv|exact He].
Defined.

Section VisitEnd.

Context {S : Type} `{MaintenanceStrategy S}.

(* The iteration on the row that carries the end timestamp of a pending
   visit. *)
Lemma finish_step_at_end (ind : Z) (st : Frame S) (k : nat) (r : Row) :
  pending_visit st = true -> end_visit_ts st = ind ->
  nth_error (wind_df st) k = Some r -> index r = ind ->
  current_pressure (finish_step ind st) = INIT_PRES /\
  pending_visit (finish_step ind st) = false /\
  nth_error (wind_df (finish_step ind st)) k =
  Some (set_pressure (Some INIT_PRES) (set_visit 1 r)).
Proof.
  intros Hp He Hk Hi.
  assert (Hc : current_pressure (finish_step ind st) = INIT_PRES).
  { rewrite pressure_finish_step, He. now rewrite Z.eqb_refl. }
  split; [exact Hc|]. split.
  - rewrite pending_finish_step, He, Z.eqb_refl. now rewrite andb_false_r.
  - rewrite (nth_finish_step_self ind st k r Hk Hi), Hc, Hp. reflexivity.
Qed.

(** C5 -- reset at the end of a visit.  At the step of a run whose row
    carries the end timestamp of the active visit (pending from before, or
    started at this very step), the current pressure is reset to INIT_PRES
    and no visit is pending afterwards; the record ends the run with its
    visit flag at 1 and INIT_PRES, the value after the reset, as its
    pressure. *)
Theorem visit_end_resets_pressure
    (this : S) (df : DataFrame) (k : nat) (row : Row) (st : Frame S) :
  NoDup (labels df) ->
  row_at df k = Some row ->
  state_before this df k = Some st ->
  active_end row st = Some (index row) ->
  exists st1 s out r,
    state_before this df (Datatypes.S k) = Some st1 /\
    current_pressure st1 = INIT_PRES /\
    pending_visit st1 = false /\
    add_downtimes this df = Some (s, out) /\
    nth_error out k = Some r /\
    visit r = 1 /\ pressure r = Some INIT_PRES.
Proof.
  intros Hnd Hr Hs Ha.
  destruct (run_through this df k row Hr) as (st' & st1 & stf & Hs' & E1 & Ef & Hrun).
  rewrite Hs in Hs'. injection Hs' as <-.
  pose proof (row_untouched_before this df k row st Hnd Hr Hs) as Hk.
  assert (Hgoal : current_pressure st1 = INIT_PRES /\ pending_visit st1 = false /\
                  exists r, nth_error (wind_df st1) k = Some r /\ index r = index row /\
                            visit r = 1 /\ pressure r = Some INIT_PRES).
  { unfold active_end in Ha. destruct (pending_visit st) eqn:Hp.
    - injection Ha as He.
      rewrite (body_pending row st Hp) in E1. injection E1 as <-.
      destruct (finish_step_at_end (index row) (decline st) k row Hp He Hk eq_refl)
        as (Hc & Hq & Hn).
      split; [exact Hc|]. split; [exact Hq|].
      eexists. split; [exact Hn|]. now repeat split.
    - destruct (starts_visit row st) eqn:Hst; [|discriminate].
      rewrite (body_started row st Hst) in E1.
      destruct (record_visit (index row) (decline st)) as [st2|] eqn:E2; [|discriminate].
      injection E1 as <-.
      apply record_visit_inv in E2. destruct E2 as (e & Hve & ->).
      simpl in Hve. rewrite Ha in Hve. injection Hve as <-.
      match goal with |- context [finish_step _ ?f] => set (st2 := f) end.
      assert (Hk2 : nth_error (wind_df st2) k = Some (set_visit 1 row)).
      { subst st2. simpl. rewrite nth_loc_set_visit, Hk. simpl.
        now rewrite Z.eqb_refl. }
      destruct (finish_step_at_end (index row) st2 k (set_visit 1 row)
                  eq_refl eq_refl Hk2 eq_refl) as (Hc & Hq & Hn).
      split; [exact Hc|]. split; [exact Hq|].
      eexists. split; [exact Hn|]. now repeat split. }
  destruct Hgoal as (Hc & Hq & r & Hn & Hi & Hv & Hpr).
  exists st1, (self stf), (wind_df stf), r.
  rewrite (state_before_step this df k row st Hr Hs).
  repeat split; try assumption.
  exact (row_settled_after df k row r st1 stf Hnd Hr Ef Hn Hi).
Qed.

End VisitEnd.

(** * The interval a visit covers *)

Lemma increasing_split (l1 l2 : list Z) (x : Z) :
  increasing (l1 ++ x :: l2) ->
  (forall y, In y l1 -> y < x) /\ (forall y, In y l2 -> x < y) /\ increasing l2.
Proof.
  unfold increasing. induction l1 as [|a l1 IH]; simpl; intro Hs.
  - apply StronglySorted_inv in Hs. destruct Hs as [Hs Hall].
    rewrite Forall_forall in Hall. repeat split; [contradiction|assumption|assumption].
  - apply StronglySorted_inv in Hs. destruct Hs as [Hs Hall].
    destruct (IH Hs) as (H1 & H2 & H3). repeat split; try assumption.
    intros y [<-|Hy]; [|now apply H1].
    rewrite Forall_forall in Hall. apply Hall. apply in_or_app. right. now left.
Qed.

Lemma same_labels_nth (df1 df2 : DataFrame) (j : nat) (r : Row) :
  labels df1 = labels df2 -> nth_error df1 j = Some r ->
  exists r', nth_error df2 j = Some r' /\ index r' = index r.
Proof.
  intros Hl Hj. pose proof (nth_labels df1 j) as H1. rewrite Hj in H1. simpl in H1.
  rewrite Hl, nth_labels in H1.
  destruct (nth_error df2 j) as [r'|]; [|discriminate].
  exists r'. split; [reflexivity|]. simpl in H1. now injection H1.
Qed.

Section Interval.

Context {S : Type} `{MaintenanceStrategy S}.

(* While a visit is pending, every row up to its end timestamp is flagged. *)
Lemma pending_marks (rows : list Row) :
  forall (st stf : Frame S) (e : Z),
    increasing (labels rows) ->
    pending_visit st = true -> end_visit_ts st = e ->
    iterrows rows st = Some stf ->
    forall (j : nat) (r0 : Row),
      nth_error (wind_df st) j = Some r0 ->
      In (index r0) (labels rows) -> index r0 <= e ->
      exists r, nth_error (wind_df stf) j = Some r /\ visit r = 1 /\ index r = index r0.
Proof.
  induction rows as [|row rest IH]; intros st stf e Hinc Hp He E j r0 Hj Hin Hle.
  - contradiction.
  - rewrite iterrows_cons, (body_pending row st Hp) in E.
    unfold increasing in Hinc. simpl in Hinc.
    apply StronglySorted_inv in Hinc. destruct Hinc as [Hrest Hall].
    rewrite Forall_forall in Hall.
    destruct (Z.eq_dec (index r0) (index row)) as [Heq|Hne].
    + pose proof (nth_finish_step_self (index row) (decline st) j r0 Hj Heq) as Hn.
      simpl pending_visit in Hn. rewrite Hp in Hn.
      destruct (visit_iterrows_keeps rest _ stf j _ E Hn eq_refl) as (r & Hr & Hv & Hi).
      exists r. repeat split; assumption.
    + destruct Hin as [Hin|Hin]; [congruence|].
      pose proof (Hall _ Hin) as Hlt.
      apply (IH (finish_step (index row) (decline st)) stf e); try assumption.
      * rewrite pending_finish_step. simpl. rewrite Hp, He. simpl.
        apply negb_true_iff, Z.eqb_neq. lia.
      * now rewrite end_finish_step.
      * now apply nth_finish_step_other.
Qed.

(** C6 -- a visit flags its whole interval.  In a run over a series with
    increasing timestamps, when a visit starts at the row with timestamp [t]
    and [e] is the end timestamp computed for it, every record of the output
    whose timestamp lies in the closed interval from [t] to [e] has its visit
    flag at 1, the triggering record and the end record included. *)
Theorem visit_flag_covers_interval
    (this : S) (df : DataFrame) (k : nat) (row : Row) (st : Frame S) (e : Z) :
  increasing (labels df) ->
  row_at df k = Some row ->
  state_before this df k = Some st ->
  starts_visit row st = true ->
  visit_end (index row) (labels df) = Some e ->
  exists st1 s out,
    state_before this df (Datatypes.S k) = Some st1 /\
    end_visit_ts st1 = e /\
    add_downtimes this df = Some (s, out) /\
    labels out = labels df /\
    forall (j : nat) (r : Row),
      nth_error out j = Some r ->
      index row <= index r <= e ->
      visit r = 1.
Proof.
  intros Hinc Hr Hs Hst Hve.
  destruct (run_through this df k row Hr) as (st' & st1 & stf & Hs' & E1 & Ef & Hrun).
  rewrite Hs in Hs'. injection Hs' as <-.
  pose proof (state_before_labels this df k st Hs) as Hlab.
  rewrite (body_started row st Hst) in E1.
  destruct (record_visit (index row) (decline st)) as [st2|] eqn:E2; [|discriminate].
  injection E1 as <-.
  apply record_visit_inv in E2. destruct E2 as (e' & Hve' & ->).
  simpl in Hve'. rewrite Hlab, Hve in Hve'. injection Hve' as <-.
  match goal with _ : context [finish_step _ ?f] |- _ => set (st2 := f) in * end.
  assert (Hlab2 : labels (wind_df st2) = labels df).
  { subst st2. simpl. now rewrite labels_loc_set_visit. }
  assert (Hlab1 : labels (wind_df (finish_step (index row) st2)) = labels df).
  { now rewrite labels_finish_step. }
  assert (Hlabf : labels (wind_df stf) = labels df).
  { now rewrite (labels_iterrows _ _ _ Ef). }
  exists (finish_step (index row) st2), (self stf), (wind_df stf).
  rewrite (state_before_step this df k row st Hr Hs), (body_started row st Hst).
  split.
  { unfold record_visit. simpl. rewrite labels_loc_set_visit, Hlab, Hve. reflexivity. }
  split; [now rewrite end_finish_step|].
  split; [exact Hrun|]. split; [exact Hlabf|].
  intros j r Hj [Hlo Hhi].
  (* the rows before, at and after the trigger *)
  unfold row_at in Hr. fold (input_columns df) in Hr.
  pose proof (f_equal labels (split_at _ _ _ Hr)) as Hsplit.
  rewrite labels_split, labels_input_columns in Hsplit.
  rewrite Hsplit in Hinc. destruct (increasing_split _ _ _ Hinc) as (Hpre & Hpost & Hincp).
  destruct (same_labels_nth (wind_df stf) (wind_df st2) j r) as (r2 & Hj2 & Hi2);
    [congruence|assumption|].
  assert (Hin : In (index r) (labels df)).
  { rewrite <- Hlabf. apply (in_map index). eapply nth_error_In. exact Hj. }
  rewrite Hsplit in Hin. apply in_app_or in Hin. destruct Hin as [Hin|[Hin|Hin]].
  - specialize (Hpre _ Hin). lia.
  - (* the triggering record *)
    assert (Heq : index r2 = index row) by congruence.
    pose proof (nth_finish_step_self (index row) st2 j r2 Hj2 Heq) as Hn.
    change (pending_visit st2) with true in Hn. cbv iota in Hn.
    destruct (visit_iterrows_keeps _ _ stf j _ Ef Hn eq_refl) as (r' & Hr' & Hv' & _).
    congruence.
  - (* a later record *)
    specialize (Hpost _ Hin).
    assert (Hne : index r2 <> index row) by lia.
    assert (Hpend : pending_visit (finish_step (index row) st2) = true).
    { rewrite pending_finish_step. change (pending_visit st2) with true.
      change (end_visit_ts st2) with e. simpl.
      apply negb_true_iff, Z.eqb_neq. lia. }
    destruct (pending_marks _ (finish_step (index row) st2) stf e Hincp Hpend
                (end_finish_step _ _) Ef j r2) as (r' & Hr' & Hv' & _).
    + now apply nth_finish_step_other.
    + now rewrite Hi2.
    + lia.
    + congruence.
Qed.

End Interval.

(** * The end timestamp of a visit *)

Lemma increasingb_sound (idx : list Z) : increasingb idx = true -> increasing idx.
Proof.
  unfold increasing. induction idx as [|a l IH]; simpl; intro Hb; constructor.
  - apply IH. now apply andb_prop in Hb.
  - apply andb_prop in Hb. destruct Hb as [Hall _].
    rewrite forallb_forall in Hall. apply Forall_forall.
    intros x Hx. apply Z.ltb_lt. now apply Hall.
Qed.

(* On an increasing index the computed end is the one the specification
   describes, and it is a label of the index not after the last one. *)
Lemma visit_end_meets_spec (ind : Z) (idx : list Z) :
  idx <> [] -> increasing idx ->
  visit_end ind idx = Some (end_of_visit_spec ind idx) /\
  In (end_of_visit_spec ind idx) idx /\
  end_of_visit_spec ind idx <= last idx 0.
Proof.
  intros Hne Hinc. unfold visit_end, end_of_visit_spec.
  destruct (iloc_last_nonempty idx Hne) as [l El]. rewrite El.
  pose proof (iloc_last_In _ _ El) as Hl.
  assert (Hlast : l = last idx 0).
  { destruct idx; [discriminate|]. simpl in El. now injection El. }
  set (due := ind + Calendar.timedelta_days MAINTENANCE_DURATION).
  destruct (due <? l) eqn:Hlt.
  - apply Z.ltb_lt in Hlt.
    destruct (first_geq_exists due l idx Hl) as [e Ee]; [lia|].
    rewrite Ee. rewrite first_geq_find in Ee. rewrite Ee.
    destruct (find_In_geq _ _ _ Ee) as [Hin _].
    repeat split; [assumption|]. now apply increasing_le_last.
  - apply Z.ltb_ge in Hlt.
    destruct (find (fun x => due <=? x) idx) as [x|] eqn:Ef.
    + destruct (find_In_geq _ _ _ Ef) as [Hin Hge].
      pose proof (increasing_le_last idx x Hinc Hin) as Hle.
      assert (x = l) by lia. subst x. rewrite <- Hlast.
      repeat split; [assumption|lia].
    + rewrite <- Hlast. repeat split; [assumption|lia].
Qed.

Section VisitEndTimestamp.

Context {S : Type} `{MaintenanceStrategy S}.

(** C4 -- end of a visit, clamped to the series.  In a run over a series
    with increasing timestamps, the end timestamp computed for a visit that
    starts at timestamp [t] is the first record timestamp that is at least
    [t] plus the maintenance duration, and the last timestamp of the series
    when there is none; it is a timestamp of the series and never lies after
    the last one. *)
Theorem visit_end_first_or_last
    (this : S) (df : DataFrame) (k : nat) (row : Row) (st : Frame S) :
  increasing (labels df) ->
  row_at df k = Some row ->
  state_before this df k = Some st ->
  starts_visit row st = true ->
  exists st1,
    state_before this df (Datatypes.S k) = Some st1 /\
    pending_visit st1 = negb (index row =? end_visit_ts st1) /\
    end_visit_ts st1 = end_of_visit_spec (index row) (labels df) /\
    In (end_visit_ts st1) (labels df) /\
    end_visit_ts st1 <= last (labels df) 0.
Proof.
  intros Hinc Hr Hs Hst.
  assert (Hne : labels df <> []).
  { apply row_at_label in Hr. intro E. rewrite E in Hr. destruct k; discriminate. }
  destruct (visit_end_meets_spec (index row) (labels df) Hne Hinc) as (Hve & Hin & Hle).
  pose proof (state_before_labels this df k st Hs) as Hlab.
  rewrite (state_before_step this df k row st Hr Hs), (body_started row st Hst).
  unfold record_visit. simpl. rewrite labels_loc_set_visit, Hlab, Hve.
  eexists. split; [reflexivity|].
  rewrite end_finish_step, pending_finish_step. simpl.
  repeat split; assumption.
Qed.

End VisitEndTimestamp.

(** * Runs in which the strategy never asks for a vessel *)




Section Idle.

Context {S : Type} `{MaintenanceStrategy S}.



End Idle.

Section IdleRun.

Context {S : Type} `{MaintenanceStrategy S}.

Lemma add_downtimes_final (this : S) (df : DataFrame) :
  add_downtimes this df =
  match state_before this df (List.length df) with
  | None => None
  | Some st => Some (self st, wind_df st)
  end.
Proof.
  unfold add_downtimes, state_before.
  destruct (enter this df) as [st0|] eqn:E0; [|reflexivity].
  destruct (enter_inv _ _ _ E0) as [_ ->]. simpl wind_df.
  replace (List.length df) with (List.length (input_columns df)).
  - now rewrite firstn_all.
  - unfold input_columns, assign_visit, assign_pressure. now rewrite !length_map.
Qed.

End IdleRun.

(** * The revenue calculator *)

Lemma column_sum_productive (df : DataFrame) :
  column_sum (map Revenue (filter productive df)) = revenue_sum_spec df.
Proof.
  unfold column_sum. induction df as [|r rest IH]; [reflexivity|].
  cbn [filter revenue_sum_spec]. unfold productive at 1. unfold pressure_ok.
  destruct (pressure r) as [p|]; [|exact IH].
  destruct (Qle_bool MIN_PRES p && (visit r =? 0)); [|exact IH].
  cbn [map fold_right]. now rewrite IH.
Qed.

(** C1 -- revenue accounting.  For every strategy object and frame the
    revenue calculator returns the sum of the revenue of exactly the records
    whose pressure is at least MIN_PRES and whose visit flag is 0, minus
    n_visits * VESSEL_COST.  On three hourly records with power 1, 2, 3 MW
    and price 10, 20, 30 Eur/MWh and a strategy that never triggers, the
    simulator leaves the three pressures at or above MIN_PRES, the three
    flags at 0 and the visit counter at 0, and the revenue is 140. *)
Theorem revenue_accounting :
  (forall (S : Type) (M : MaintenanceStrategy S) (this : S) (df : DataFrame),
     calculate_revenue this df =
     (revenue_sum_spec df - inject_Z (n_visits this * VESSEL_COST))%Q) /\
  (exists (s : ConditionMonitoring) (out : DataFrame),
     add_downtimes Samples.idle Samples.three_hours = Some (s, out) /\
     map Power out = [1; 2; 3]%Q /\
     map Price out = [10; 20; 30]%Q /\
     map pressure_ok out = [true; true; true] /\
     map visit out = [0; 0; 0] /\
     n_visits s = 0 /\
     (calculate_revenue s out == 140)%Q).
Proof.
  split.
  - intros S M this df. unfold calculate_revenue.
    now rewrite column_sum_productive.
  - destruct (add_downtimes Samples.idle Samples.three_hours) as [[s out]|] eqn:E;
      [|vm_compute in E; discriminate].
    exists s, out. split; [reflexivity|].
    vm_compute in E. injection E as <- <-.
    repeat split; vm_compute; reflexivity.
Qed.

(** * The wind gate and the pressure column *)

Section DroppedTrigger.

Context {S : Type} `{MaintenanceStrategy S}.

(* The record of a dropped trigger keeps the NaN the pressure column was
   initialised with. *)
Lemma dropped_trigger_keeps_nan
    (this : S) (df : DataFrame) (k : nat) (row : Row) (st : Frame S) :
  NoDup (labels df) ->
  row_at df k = Some row ->
  state_before this df k = Some st ->
  drops_trigger row st = true ->
  exists s out r,
    add_downtimes this df = Some (s, out) /\
    nth_error out k = Some r /\ pressure r = None.
Proof.
  intros Hnd Hr Hs Hd.
  destruct (run_through this df k row Hr) as (st' & st1 & stf & Hs' & E1 & Ef & Hrun).
  rewrite Hs in Hs'. injection Hs' as <-.
  rewrite (body_dropped row st Hd) in E1. injection E1 as <-.
  exists (self stf), (wind_df stf), row. split; [exact Hrun|]. split.
  - apply (row_settled_after df k row row (decline st) stf Hnd Hr Ef); [|reflexivity].
    exact (row_untouched_before this df k row st Hnd Hr Hs).
  - now destruct (row_at_fresh df k row Hr).
Qed.

End DroppedTrigger.

(** C2 -- the pressure of every processed record.  The eager strategy on
    the frame whose first hour is windy: the trigger of the first hour is
    dropped by the wind gate, the step ends with a current pressure of
    1.9999 bars, and the record leaves the run with NaN as its pressure. *)
Theorem dropped_trigger_pressure_unrecorded :
  exists (row : Row) (st st1 : Frame ConditionMonitoring)
         (s : ConditionMonitoring) (out : DataFrame) (r : Row),
    row_at Samples.windy_start 0 = Some row /\
    state_before Samples.eager Samples.windy_start 0 = Some st /\
    drops_trigger row st = true /\
    state_before Samples.eager Samples.windy_start 1 = Some st1 /\
    (current_pressure st1 == 19999 # 10000)%Q /\
    add_downtimes Samples.eager Samples.windy_start = Some (s, out) /\
    nth_error out 0 = Some r /\
    pressure r = None.
Proof.
  pose (row0 := mkRow 0 6 10 1 (1 * 10)%Q None 0).
  assert (Hr : row_at Samples.windy_start 0 = Some row0) by reflexivity.
  destruct (state_before Samples.eager Samples.windy_start 0) as [st|] eqn:Es;
    [|vm_compute in Es; discriminate].
  assert (Hd : drops_trigger row0 st = true).
  { vm_compute in Es. injection Es as <-. reflexivity. }
  destruct (dropped_trigger_keeps_nan Samples.eager Samples.windy_start 0 row0 st)
    as (s & out & r & Hrun & Hn & Hp); try assumption.
  { apply increasing_NoDup, increasingb_sound. reflexivity. }
  exists row0, st, (decline st), s, out, r.
  split; [exact Hr|]. split; [reflexivity|]. split; [exact Hd|].
  split; [rewrite (state_before_step _ _ 0 _ st Hr Es); now apply body_dropped|].
  split; [vm_compute in Es; injection Es as <-; reflexivity|].
  now repeat split.
Qed.

(** * Instances of the claims on the sample data *)

(* The eager strategy on the frame whose first hour is windy: the first
   trigger meets a wind speed of 6 m/s. *)
Lemma wind_gate_drops_trigger_witness :
  exists (st1 : Frame ConditionMonitoring) (s : ConditionMonitoring)
         (out : DataFrame) (r : Row),
    state_before Samples.eager Samples.windy_start 1 = Some st1 /\
    pending_visit st1 = false /\
    n_visits (self st1) = 0 /\
    add_downtimes Samples.eager Samples.windy_start = Some (s, out) /\
    nth_error out 0 = Some r /\ visit r = 0.
Proof.
  pose (row0 := mkRow 0 6 10 1 (1 * 10)%Q None 0).
  pose (st0 := mkFrame (input_columns Samples.windy_start) INIT_PRES
                 (2 * Samples.HOUR + Calendar.timedelta_days 1) false Samples.eager).
  destruct (wind_gate_drops_trigger Samples.eager Samples.windy_start 0 row0 st0)
    as [(st1 & s & out & r & Hs & Hp & _ & Hn & _ & _ & Hrun & Hr & Hv) _].
  - apply increasing_NoDup, increasingb_sound. reflexivity.
  - reflexivity.
  - reflexivity.
  - reflexivity.
  - reflexivity.
  - reflexivity.
  - exists st1, s, out, r. repeat split; assumption.
Defined.

(* The same run two hours later: the visit started in the second hour ends
   on the third record, the last of the series. *)
Lemma visit_end_resets_pressure_witness :
  exists (st1 : Frame ConditionMonitoring) (s : ConditionMonitoring)
         (out : DataFrame) (r : Row),
    state_before Samples.eager Samples.windy_start 3 = Some st1 /\
    current_pressure st1 = INIT_PRES /\
    pending_visit st1 = false /\
    add_downtimes Samples.eager Samples.windy_start = Some (s, out) /\
    nth_error out 2 = Some r /\
    visit r = 1 /\ pressure r = Some INIT_PRES.
Proof.
  pose (row2 := mkRow (2 * Samples.HOUR) 3 30 3 (3 * 30)%Q None 0).
  destruct (state_before Samples.eager Samples.windy_start 2) as [st|] eqn:Es;
    [|vm_compute in Es; discriminate].
  apply (visit_end_resets_pressure Samples.eager Samples.windy_start 2 row2 st).
  - apply increasing_NoDup, increasingb_sound. reflexivity.
  - reflexivity.
  - exact Es.
  - vm_compute in Es. injection Es as <-. reflexivity.
Defined.

(* The eager strategy on thirty calm hours: the visit starts on the first
   record and ends a day later, on the twenty-fifth. *)
Lemma visit_flag_covers_interval_witness :
  exists (st1 : Frame ConditionMonitoring) (s : ConditionMonitoring) (out : DataFrame),
    state_before Samples.eager (Samples.hourly 30) 1 = Some st1 /\
    end_visit_ts st1 = 24 * Samples.HOUR /\
    add_downtimes Samples.eager (Samples.hourly 30) = Some (s, out) /\
    labels out = labels (Samples.hourly 30) /\
    forall (j : nat) (r : Row),
      nth_error out j = Some r ->
      0 <= index r <= 24 * Samples.HOUR ->
      visit r = 1.
Proof.
  pose (row0 := generate_row 0 3 1 1).
  pose (st0 := mkFrame (input_columns (Samples.hourly 30)) INIT_PRES
                 (29 * Samples.HOUR + Calendar.timedelta_days 1) false Samples.eager).
  apply (visit_flag_covers_interval Samples.eager (Samples.hourly 30) 0 row0 st0
           (24 * Samples.HOUR)).
  - apply increasingb_sound. reflexivity.
  - reflexivity.
  - reflexivity.
  - reflexivity.
  - reflexivity.
Defined.

Lemma visit_end_first_or_last_witness :
  exists st1 : Frame ConditionMonitoring,
    state_before Samples.eager (Samples.hourly 30) 1 = Some st1 /\
    pending_visit st1 = negb (0 =? end_visit_ts st1) /\
    end_visit_ts st1 = end_of_visit_spec 0 (labels (Samples.hourly 30)) /\
    In (end_visit_ts st1) (labels (Samples.hourly 30)) /\
    end_visit_ts st1 <= last (labels (Samples.hourly 30)) 0.
Proof.
  pose (row0 := generate_row 0 3 1 1).
  pose (st0 := mkFrame (input_columns (Samples.hourly 30)) INIT_PRES
                 (29 * Samples.HOUR + Calendar.timedelta_days 1) false Samples.eager).
  apply (visit_end_first_or_last Samples.eager (Samples.hourly 30) 0 row0 st0).
  - apply increasingb_sound. reflexivity.
  - reflexivity.
  - reflexivity.
  - reflexivity.
Defined.

(** * Construction of the strategies and their decisions *)

Module CalendarFacts.

Import Calendar.

Lemma day_of_year_range (doe : Z) :
  0 <= doe < 146097 -> 0 <= day_of_year doe <= 365.
Proof.
  intro Hdoe. unfold day_of_year, year_of_era. cbv zeta.
  Z.div_mod_to_equations. lia.
Qed.

Lemma day_of_year_of_timestamp (t : Z) :
  0 <= day_of_year (day_of_era (day_number t)) <= 365.
Proof.
  apply day_of_year_range. unfold day_of_era. apply Z.mod_pos_bound. lia.
Qed.

Lemma month_of_range (t : Z) : 1 <= month_of t <= 12.
Proof.
  unfold month_of. cbv zeta.
  pose proof (day_of_year_of_timestamp t) as Hdoy.
  set (doy := day_of_year _) in *. unfold month_from_march.
  destruct (Z.ltb_spec ((5 * doy + 2) / 153) 10); Z.div_mod_to_equations; lia.
Qed.

Lemma day_of_range (t : Z) : 1 <= day_of t <= 31.
Proof.
  unfold day_of. cbv zeta.
  pose proof (day_of_year_of_timestamp t) as Hdoy.
  set (doy := day_of_year _) in *. unfold month_from_march.
  Z.div_mod_to_equations. lia.
Qed.

(* 1970-01-01, 2024-02-29 00:00, 2024-03-01 00:00, 2024-12-31 23:59:59 and
   the last second of 1969 *)
Example known_dates :
  map (fun t => (month_of t, day_of t))
      [0; 1709164800; 1709251200; 1735689599; -1] =
  [(1, 1); (2, 29); (3, 1); (12, 31); (12, 31)].
Proof. vm_compute. reflexivity. Qed.

End CalendarFacts.

(* Both constructors return for values the specification wants rejected. *)
Lemma construction_accepts_out_of_range :
  ScheduledMaintenance_init 32 13 =
    Returned (mkScheduled 0 "Scheduled Maintenance" 13 32) /\
  ScheduledMaintenance_init 0 (-4) =
    Returned (mkScheduled 0 "Scheduled Maintenance" (-4) 0) /\
  ConditionMonitoring_init (-1 # 2) =
    Returned (mkCondition 0 "Condition Monitoring" (-1 # 2)) /\
  ConditionMonitoring_init 0 =
    Returned (mkCondition 0 "Condition Monitoring" 0).
Proof. repeat split. Qed.

(** C8, as amended -- construction and decision.  Neither constructor
    checks its arguments: for every day, month and threshold it returns a
    strategy that stores them as given, with the visit counter at 0.  The
    decision of either strategy is a total function of its inputs; a
    scheduled strategy whose month is outside 1..12 or whose day is outside
    1..31 decides false on every timestamp, and a condition strategy decides
    true exactly when the pressure is at most its threshold, whatever the
    sign of the threshold. *)
Theorem construction_unchecked_decision_total :
  (forall day month : Z,
     ScheduledMaintenance_init day month =
     Returned (mkScheduled 0 "Scheduled Maintenance" month day)) /\
  (forall threshold : Q,
     ConditionMonitoring_init threshold =
     Returned (mkCondition 0 "Condition Monitoring" threshold)) /\
  (forall (s : ScheduledMaintenance) (p : Q) (t : Z) (w c : Q),
     exists b : bool, fix_pressure s p t w c = b) /\
  (forall (s : ConditionMonitoring) (p : Q) (t : Z) (w c : Q),
     exists b : bool, fix_pressure s p t w c = b) /\
  (forall (s : ScheduledMaintenance) (p : Q) (t : Z) (w c : Q),
     ~ (1 <= month s <= 12 /\ 1 <= day s <= 31) ->
     fix_pressure s p t w c = false) /\
  (forall (s : ConditionMonitoring) (p : Q) (t : Z) (w c : Q),
     fix_pressure s p t w c = true <-> (p <= pressure_threshold s)%Q).
Proof.
  split; [reflexivity|]. split; [reflexivity|].
  split; [intros; eexists; reflexivity|]. split; [intros; eexists; reflexivity|].
  split.
  - intros s p t w c Hout. simpl.
    pose proof (CalendarFacts.month_of_range t) as Hm.
    pose proof (CalendarFacts.day_of_range t) as Hd.
    destruct (Z.eqb_spec (Calendar.month_of t) (month s)) as [Em|_]; [|reflexivity].
    destruct (Z.eqb_spec (Calendar.day_of t) (day s)) as [Ed|_]; [|reflexivity].
    exfalso. apply Hout. rewrite <- Em, <- Ed. now split.
  - intros s p t w c. simpl. apply Qle_bool_iff.
Qed.

Lemma construction_unchecked_decision_total_witness :
  fix_pressure (mkScheduled 0 "Scheduled Maintenance" 13 32) 2 0 3 10 = false /\
  (fix_pressure (mkCondition 0 "Condition Monitoring" (-1 # 2)) (-1) 0 3 10 = true <->
   (-1 <= -1 # 2)%Q).
Proof.
  destruct construction_unchecked_decision_total as (_ & _ & _ & _ & Hs & Hc).
  split.
  - apply Hs. simpl. lia.
  - apply Hc.
Defined.

(** * Determinism *)

Section Determinism.

Context {S : Type} `{MaintenanceStrategy S}.

(* The simulator reads the input columns of the frame only. *)
Lemma add_downtimes_reads_input_columns (this : S) (df : DataFrame) :
  add_downtimes this df = add_downtimes this (input_columns df).
Proof.
  unfold add_downtimes, enter. fold (input_columns df).
  fold (input_columns (input_columns df)).
  now rewrite input_columns_idempotent.
Qed.

Lemma add_downtimes_input_columns (this s : S) (df out : DataFrame) :
  add_downtimes this df = Some (s, out) -> input_columns out = input_columns df.
Proof.
  unfold add_downtimes.
  destruct (enter this df) as [st0|] eqn:E0; [|discriminate].
  destruct (enter_inv _ _ _ E0) as [_ ->]. simpl wind_df.
  destruct (iterrows _ _) as [st|] eqn:E; [|discriminate].
  intro Eq. injection Eq as _ <-.
  rewrite (input_columns_iterrows _ _ _ E). simpl. apply input_columns_idempotent.
Qed.

End Determinism.

(* One strategy object used for two runs on one series: the second run
   starts from the object the first run left, be it on the frame the first
   run annotated in place or on the series as it was.  The annotated frames
   agree; the visit counter is 1 after the first run and 2 after the
   second. *)
Lemma reused_strategy_keeps_counting :
  exists (s1 s2 : ConditionMonitoring) (out1 : DataFrame),
    add_downtimes Samples.eager Samples.windy_start = Some (s1, out1) /\
    add_downtimes s1 out1 = Some (s2, out1) /\
    add_downtimes s1 Samples.windy_start = Some (s2, out1) /\
    n_visits s1 = 1 /\ n_visits s2 = 2.
Proof.
  destruct (add_downtimes Samples.eager Samples.windy_start) as [[s1 out1]|] eqn:E1;
    [|vm_compute in E1; discriminate].
  vm_compute in E1. injection E1 as <- <-.
  eexists. eexists. eexists.
  split; [reflexivity|]. split; [vm_compute; reflexivity|].
  split; [vm_compute; reflexivity|]. split; reflexivity.
Qed.

(** * Further properties of the walk *)

Lemma In_skipn {A : Type} (x : A) (n : nat) (l : list A) :
  In x (skipn n l) -> In x l.
Proof.
  revert l. induction n as [|n IH]; intros [|a l]; simpl; try contradiction; auto.
Qed.

Lemma firstn_segment {A : Type} (l : list A) (k j : nat) :
  (k <= j)%nat -> firstn j l = firstn k l ++ skipn k (firstn j l).
Proof.
  intro Hkj. rewrite <- (firstn_skipn k (firstn j l)) at 1.
  f_equal. rewrite firstn_firstn. f_equal. lia.
Qed.

Section Further.

Context {S : Type} `{MaintenanceStrategy S}.

(** The walk completes on every frame that has rows, leaving the index and
    the input columns as they were; on the empty frame it raises at
    [wind_df.index[-1]]. *)
Theorem walk_completes_unless_empty (this : S) (df : DataFrame) :
  (df = [] -> add_downtimes this df = None) /\
  (df <> [] ->
   exists (s : S) (out : DataFrame),
     add_downtimes this df = Some (s, out) /\
     labels out = labels df /\
     input_columns out = input_columns df).
Proof.
  split.
  - intros ->. reflexivity.
  - intro Hne. destruct (add_downtimes_total this df Hne) as (s & out & Hrun).
    exists s, out. split; [exact Hrun|].
    pose proof (add_downtimes_input_columns this s df out Hrun) as Hin.
    split; [now apply labels_of_input_columns|exact Hin].
Qed.

(** Monotonic decay.  An iteration that does not take the reset leaves the
    current pressure exactly DECLINE_RATE below what it was, also when it
    drops a trigger; an iteration that takes the reset leaves INIT_PRES. *)
Theorem pressure_declines_between_resets (row : Row) (st st' : Frame S) :
  body row st = Some st' ->
  (drops_trigger row st = true \/ index row <> end_visit_ts st' ->
   current_pressure st' = (current_pressure st - DECLINE_RATE)%Q) /\
  (drops_trigger row st = false -> index row = end_visit_ts st' ->
   current_pressure st' = INIT_PRES).
Proof.
  intro E.
  assert (Hfin : forall st2 : Frame S,
             st' = finish_step (index row) st2 ->
             current_pressure st2 = (current_pressure st - DECLINE_RATE)%Q ->
             (index row <> end_visit_ts st' ->
              current_pressure st' = (current_pressure st - DECLINE_RATE)%Q) /\
             (index row = end_visit_ts st' -> current_pressure st' = INIT_PRES)).
  { intros st2 -> Hc. rewrite end_finish_step, pressure_finish_step. split; intro Hi.
    - apply Z.eqb_neq in Hi. now rewrite Hi.
    - apply Z.eqb_eq in Hi. now rewrite Hi. }
  destruct (body_cases row st) as [Hc|[[Hp Hc]|[Hc|Hc]]].
  - rewrite (body_pending _ _ Hc) in E. injection E as E.
    destruct (Hfin (decline st) (eq_sym E) eq_refl) as [H1 H2].
    split; [|intros _; exact H2].
    intros [Hd|Hi]; [|now apply H1].
    unfold drops_trigger in Hd. rewrite Hc in Hd. discriminate.
  - rewrite (body_quiet _ _ Hc) in E. injection E as E.
    destruct (Hfin (decline st) (eq_sym E) eq_refl) as [H1 H2].
    split; [|intros _; exact H2].
    intros [Hd|Hi]; [|now apply H1].
    unfold drops_trigger in Hd. rewrite Hc, andb_false_r in Hd. discriminate.
  - rewrite (body_dropped _ _ Hc) in E. injection E as <-.
    split; [reflexivity|]. intro Hd. congruence.
  - rewrite (body_started _ _ Hc) in E.
    destruct (record_visit (index row) (decline st)) as [st2|] eqn:E2; [|discriminate].
    injection E as E. apply record_visit_inv in E2. destruct E2 as (e & _ & E2).
    destruct (Hfin st2 (eq_sym E)) as [H1 H2]; [now rewrite E2|].
    split; [|intros _; exact H2].
    intros [Hd|Hi]; [|now apply H1].
    unfold drops_trigger in Hd. unfold starts_visit in Hc.
    apply andb_prop in Hc, Hd. destruct Hc as [_ Hc]. destruct Hd as [_ Hd].
    rewrite Hd in Hc. discriminate.
Qed.

(* A pending visit can only be cleared by a row that carries its end
   timestamp. *)
Lemma pending_cleared_at_end (rows : list Row) :
  forall st stf : Frame S,
    pending_visit st = true ->
    iterrows rows st = Some stf ->
    pending_visit stf = false ->
    In (end_visit_ts st) (labels rows).
Proof.
  induction rows as [|row rest IH]; intros st stf Hp E Hq.
  - injection E as <-. congruence.
  - rewrite iterrows_cons, (body_pending row st Hp) in E.
    destruct (Z.eq_dec (index row) (end_visit_ts st)) as [Heq|Hne]; [now left|].
    right.
    assert (He : end_visit_ts (finish_step (index row) (decline st)) = end_visit_ts st)
      by now rewrite end_finish_step.
    rewrite <- He. apply (IH _ stf); [|exact E|exact Hq].
    rewrite pending_finish_step. simpl. rewrite Hp. simpl.
    now apply negb_true_iff, Z.eqb_neq.
Qed.

(** Visits do not overlap.  In a run over a series with increasing
    timestamps, a visit that starts after another one starts strictly after
    the end timestamp of that one. *)
Theorem visits_do_not_overlap
    (this : S) (df : DataFrame) (k j : nat) (row row' : Row) (st st1 st' : Frame S) :
  increasing (labels df) ->
  (k < j)%nat ->
  row_at df k = Some row ->
  state_before this df k = Some st ->
  starts_visit row st = true ->
  state_before this df (Datatypes.S k) = Some st1 ->
  row_at df j = Some row' ->
  state_before this df j = Some st' ->
  starts_visit row' st' = true ->
  index row <= end_visit_ts st1 /\ end_visit_ts st1 < index row'.
Proof.
  intros Hinc Hkj Hr Hs Hst Hs1 Hr' Hs' Hst'.
  (* the labels before the second trigger are below it *)
  pose proof Hr' as Hsplit. unfold row_at in Hsplit. fold (input_columns df) in Hsplit.
  apply split_at in Hsplit. apply (f_equal labels) in Hsplit.
  rewrite labels_split, labels_input_columns in Hsplit.
  pose proof Hinc as Hinc'. rewrite Hsplit in Hinc'.
  destruct (increasing_split _ _ _ Hinc') as (Hbelow & _ & _).
  assert (Hrow : index row < index row').
  { apply Hbelow. apply (in_map index).
    unfold row_at in Hr. fold (input_columns df) in Hr.
    apply nth_error_In with (n := k). rewrite nth_error_firstn.
    destruct (Nat.ltb_spec k j); [exact Hr|lia]. }
  (* the state after the first trigger *)
  destruct (visit_end_meets_spec (index row) (labels df)) as (Hve & Hin & Hle);
    [intro E; apply row_at_label in Hr; rewrite E in Hr; destruct k; discriminate
    |exact Hinc|].
  pose proof (state_before_labels this df k st Hs) as Hlab.
  rewrite (state_before_step this df k row st Hr Hs), (body_started row st Hst) in Hs1.
  unfold record_visit in Hs1. simpl in Hs1.
  rewrite labels_loc_set_visit, Hlab, Hve in Hs1. injection Hs1 as <-.
  remember (end_of_visit_spec (index row) (labels df)) as e eqn:He.
  match goal with |- context [finish_step _ ?f] => set (st2 := f) in * end.
  assert (Hend : end_visit_ts (finish_step (index row) st2) = e)
    by now rewrite end_finish_step.
  rewrite Hend.
  assert (Hte : index row <= e).
  { rewrite He. unfold end_of_visit_spec.
    destruct (find _ (labels df)) as [x|] eqn:Ef.
    - apply find_In_geq in Ef. unfold Calendar.timedelta_days, MAINTENANCE_DURATION,
        Calendar.SECONDS_PER_DAY in Ef. lia.
    - apply increasing_le_last; [exact Hinc|].
      apply row_at_label in Hr. eapply nth_error_In. exact Hr. }
  split; [exact Hte|].
  destruct (Z.eq_dec (index row) e) as [Heq|Hne]; [lia|].
  (* the visit is pending after the trigger and cleared before the next *)
  assert (Hpend : pending_visit (finish_step (index row) st2) = true).
  { rewrite pending_finish_step. subst st2. simpl.
    now apply negb_true_iff, Z.eqb_neq. }
  assert (Hseg : iterrows (skipn (Datatypes.S k) (firstn j (input_columns df)))
                   (finish_step (index row) st2) = Some st').
  { unfold state_before in Hs'.
    destruct (enter this df) as [st0|] eqn:E0; [|discriminate].
    destruct (enter_inv _ _ _ E0) as [_ E0']. subst st0. simpl wind_df in Hs'.
    rewrite (firstn_segment _ (Datatypes.S k) j) in Hs' by lia.
    rewrite iterrows_app in Hs'.
    assert (E1 : state_before this df (Datatypes.S k) = Some (finish_step (index row) st2)).
    { rewrite (state_before_step this df k row st Hr Hs), (body_started row st Hst).
      unfold record_visit. simpl. now rewrite labels_loc_set_visit, Hlab, Hve. }
    unfold state_before in E1. rewrite E0 in E1. simpl wind_df in E1.
    now rewrite E1 in Hs'. }
  assert (Hq : pending_visit st' = false).
  { unfold starts_visit in Hst'. destruct (pending_visit st'); [discriminate|reflexivity]. }
  pose proof (pending_cleared_at_end _ _ _ Hpend Hseg Hq) as Hin'.
  rewrite Hend in Hin'.
  apply Hbelow. unfold labels in *. apply in_map_iff in Hin'.
  destruct Hin' as (x & Hx & Hxin). apply in_map_iff. exists x.
  split; [exact Hx|]. now apply In_skipn in Hxin.
Qed.

End Further.

(* The first iteration of the eager strategy on the windy frame drops its
   trigger and only declines. *)
Lemma pressure_declines_between_resets_witness :
  exists st st' : Frame ConditionMonitoring,
    state_before Samples.eager Samples.windy_start 0 = Some st /\
    state_before Samples.eager Samples.windy_start 1 = Some st' /\
    current_pressure st' = (current_pressure st - DECLINE_RATE)%Q.
Proof.
  pose (row0 := mkRow 0 6 10 1 (1 * 10)%Q None 0).
  pose (st0 := mkFrame (input_columns Samples.windy_start) INIT_PRES
                 (2 * Samples.HOUR + Calendar.timedelta_days 1) false Samples.eager).
  exists st0, (decline st0). split; [reflexivity|]. split; [reflexivity|].
  apply (pressure_declines_between_resets row0 st0 (decline st0)).
  - reflexivity.
  - left. reflexivity.
Defined.

(* The eager strategy on thirty calm hours starts a visit on the first
   record and the next one on the twenty-sixth, an hour after the end of the
   first. *)
Lemma visits_do_not_overlap_witness :
  exists st1 : Frame ConditionMonitoring,
    state_before Samples.eager (Samples.hourly 30) 1 = Some st1 /\
    0 <= end_visit_ts st1 /\ end_visit_ts st1 < 25 * Samples.HOUR.
Proof.
  pose (row0 := generate_row 0 3 1 1).
  pose (row25 := generate_row (25 * Samples.HOUR) 3 1 1).
  destruct (state_before Samples.eager (Samples.hourly 30) 0) as [st|] eqn:Es;
    [|vm_compute in Es; discriminate].
  destruct (state_before Samples.eager (Samples.hourly 30) 1) as [st1|] eqn:Es1;
    [|vm_compute in Es1; discriminate].
  destruct (state_before Samples.eager (Samples.hourly 30) 25) as [st'|] eqn:Es';
    [|vm_compute in Es'; discriminate].
  exists st1. split; [reflexivity|].
  apply (visits_do_not_overlap Samples.eager (Samples.hourly 30) 0 25 row0 row25 st st1 st').
  - apply increasingb_sound. reflexivity.
  - repeat constructor.
  - reflexivity.
  - exact Es.
  - vm_compute in Es. injection Es as <-. reflexivity.
  - exact Es1.
  - reflexivity.
  - exact Es'.
  - vm_compute in Es'. injection Es' as <-. vm_compute. reflexivity.
Defined.

(** * The power curve lookup of [data_utils.py] *)

Module DataUtilsFacts.

Import DataUtils.

Lemma Qltb_lt (a b : Q) : Qltb a b = true <-> (a < b)%Q.
Proof.
  unfold Qltb. rewrite negb_true_iff. split.
  - intro Hb. apply Qnot_le_lt. intro Hle. apply Qle_bool_iff in Hle. congruence.
  - intro Hlt. destruct (Qle_bool b a) eqn:E; [|reflexivity].
    apply Qle_bool_iff in E. exfalso. exact (Qlt_not_le _ _ Hlt E).
Qed.

Lemma Qltb_ge (a b : Q) : Qltb a b = false <-> (b <= a)%Q.
Proof.
  unfold Qltb. rewrite negb_false_iff. apply Qle_bool_iff.
Qed.

Lemma nth_error_snoc_inv {A : Type} (l : list A) (x y : A) (j : nat) :
  nth_error (l ++ [x]) j = Some y ->
  nth_error l j = Some y \/ (j = List.length l /\ y = x).
Proof.
  intro Hj. destruct (Nat.lt_ge_cases j (List.length l)) as [Hlt|Hge].
  - left. now rewrite nth_error_app1 in Hj.
  - right. rewrite nth_error_app2 in Hj by exact Hge.
    destruct (j - List.length l)%nat as [|n] eqn:E.
    + simpl in Hj. injection Hj as <-. split; [lia|reflexivity].
    + simpl in Hj. destruct n; discriminate.
Qed.

(* The scan of np.argmin: [best] at [best_i] is least among the values
   scanned so far and strictly below those before it; the index returned
   has the same two properties in the whole array. *)
Lemma argmin_from_least (rest : list Q) :
  forall (scanned : list Q) (best_i : nat) (best : Q),
    nth_error scanned best_i = Some best ->
    (forall j x, nth_error scanned j = Some x -> (best <= x)%Q) ->
    (forall j x, (j < best_i)%nat -> nth_error scanned j = Some x -> (best < x)%Q) ->
    exists m,
      nth_error (scanned ++ rest)
                (argmin_from best_i best (List.length scanned) rest) = Some m /\
      (forall j x, nth_error (scanned ++ rest) j = Some x -> (m <= x)%Q) /\
      (forall j x,
         (j < argmin_from best_i best (List.length scanned) rest)%nat ->
         nth_error (scanned ++ rest) j = Some x -> (m < x)%Q).
Proof.
  induction rest as [|x rest IH]; intros scanned best_i best Hb Hle Hlt.
  - simpl. rewrite app_nil_r. exists best. now repeat split.
  - simpl argmin_from.
    replace (scanned ++ x :: rest) with ((scanned ++ [x]) ++ rest)
      by now rewrite <- app_assoc.
    replace (Datatypes.S (List.length scanned)) with (List.length (scanned ++ [x]))
      by (rewrite length_app; simpl; lia).
    destruct (Qltb x best) eqn:E.
    + apply Qltb_lt in E. apply IH.
      * rewrite nth_error_app2 by lia. now rewrite Nat.sub_diag.
      * intros j y Hj. apply nth_error_snoc_inv in Hj.
        destruct Hj as [Hj|[_ ->]]; [|apply Qle_refl].
        apply Qlt_le_weak. eapply Qlt_le_trans; [exact E|]. eapply Hle. exact Hj.
      * intros j y Hjl Hj. apply nth_error_snoc_inv in Hj.
        destruct Hj as [Hj|[-> _]]; [|lia].
        eapply Qlt_le_trans; [exact E|]. eapply Hle. exact Hj.
    + apply Qltb_ge in E. apply IH.
      * rewrite nth_error_app1; [exact Hb|].
        apply nth_error_Some. congruence.
      * intros j y Hj. apply nth_error_snoc_inv in Hj.
        destruct Hj as [Hj|[_ ->]]; [eapply Hle; exact Hj|exact E].
      * intros j y Hjl Hj. apply nth_error_snoc_inv in Hj.
        destruct Hj as [Hj|[-> _]]; [eapply Hlt; eassumption|].
        assert (best_i < List.length scanned)%nat
          by (apply nth_error_Some; congruence).
        lia.
Qed.

Lemma argmin_least (a : list Q) :
  a <> [] ->
  exists i m,
    argmin a = Some i /\ nth_error a i = Some m /\
    (forall j x, nth_error a j = Some x -> (m <= x)%Q) /\
    (forall j x, (j < i)%nat -> nth_error a j = Some x -> (m < x)%Q).
Proof.
  destruct a as [|x rest]; [congruence|]. intros _.
  destruct (argmin_from_least rest [x] 0%nat x) as (m & Hm & Hle & Hlt).
  - reflexivity.
  - intros [|j] y Hj; simpl in Hj; [injection Hj as <-; apply Qle_refl|].
    destruct j; discriminate.
  - intros j y Hj. lia.
  - exists (argmin_from 0 x 1 rest), m. now repeat split.
Qed.

(* The entry the lookup returns on a curve that has entries. *)
Lemma calculate_power_least (power_curve : PowerCurve) (wind_speed : Q) :
  power_curve <> [] ->
  exists (i : nat) (entry : Q * Q),
    nth_error power_curve i = Some entry /\
    calculate_power power_curve wind_speed = Some (snd entry) /\
    (forall j other,
       nth_error power_curve j = Some other ->
       (Qabs (fst entry - wind_speed) <= Qabs (fst other - wind_speed))%Q) /\
    (forall j other,
       (j < i)%nat -> nth_error power_curve j = Some other ->
       (Qabs (fst entry - wind_speed) < Qabs (fst other - wind_speed))%Q).
Proof.
  intro Hne.
  assert (Hd : distances power_curve wind_speed <> []).
  { unfold distances. destruct power_curve; [congruence|discriminate]. }
  destruct (argmin_least _ Hd) as (i & m & Ha & Hm & Hle & Hlt).
  unfold distances in Hm. rewrite nth_error_map in Hm.
  destruct (nth_error power_curve i) as [entry|] eqn:Ei; [|discriminate].
  cbn [option_map] in Hm. injection Hm as <-.
  exists i, entry. split; [exact Ei|]. split.
  - unfold calculate_power. now rewrite Ha, Ei.
  - split.
    + intros j other Hj. apply (Hle j). unfold distances.
      now rewrite nth_error_map, Hj.
    + intros j other Hji Hj. apply (Hlt j); [exact Hji|]. unfold distances.
      now rewrite nth_error_map, Hj.
Qed.

(** ** Dropping duplicated timestamps *)

Section Duplicates.

Context {A : Type}.

(* The rows kept when the labels in [seen] have occurred before. *)
Local Notation kept seen df :=
  (select_rows (map negb (duplicated_after seen (map fst df))) df).

Lemma kept_cons (seen : list Z) (i : Z) (a : A) (rest : list (Z * A)) :
  kept seen ((i, a) :: rest) =
  if existsb (Z.eqb i) seen
  then kept (i :: seen) rest
  else (i, a) :: kept (i :: seen) rest.
Proof. simpl. now destruct (existsb (Z.eqb i) seen). Qed.

Lemma seen_before (seen : list Z) (i : Z) :
  existsb (Z.eqb i) seen = true <-> In i seen.
Proof.
  rewrite existsb_exists. split.
  - intros (x & Hx & He). apply Z.eqb_eq in He. now subst.
  - intro Hin. exists i. split; [exact Hin|apply Z.eqb_refl].
Qed.

Lemma In_kept (df : list (Z * A)) :
  forall (seen : list Z) (i : Z) (a : A),
    In (i, a) (kept seen df) <->
    ~ In i seen /\ find (fun r => fst r =? i) df = Some (i, a).
Proof.
  induction df as [|[i0 a0] rest IH]; intros seen i a.
  - simpl. split; [contradiction|intros [_ E]; discriminate].
  - rewrite kept_cons. cbn [find fst].
    destruct (Z.eqb_spec i0 i) as [->|Hne].
    + destruct (existsb (Z.eqb i) seen) eqn:E.
      * apply seen_before in E. rewrite IH. simpl. tauto.
      * assert (Hn : ~ In i seen) by (rewrite <- seen_before; congruence).
        simpl. rewrite IH. simpl. split.
        -- intros [Heq|[Hc _]]; [now rewrite Heq|tauto].
        -- intros [_ Heq]. left. congruence.
    + destruct (existsb (Z.eqb i0) seen) eqn:E.
      * rewrite IH. simpl. intuition congruence.
      * simpl. rewrite IH. simpl. split.
        -- intros [Heq|[Hc Hf]]; [congruence|tauto].
        -- intros [Hn Hf]. right. split; [|exact Hf]. intuition congruence.
Qed.

Lemma kept_labels_fresh (df : list (Z * A)) (seen : list Z) (i : Z) :
  In i (map fst (kept seen df)) -> ~ In i seen.
Proof.
  intro Hin. apply in_map_iff in Hin. destruct Hin as ([i' a] & Hi & Hin).
  simpl in Hi. subst i'. now apply In_kept in Hin.
Qed.

Lemma NoDup_kept (df : list (Z * A)) :
  forall seen : list Z, NoDup (map fst (kept seen df)).
Proof.
  induction df as [|[i0 a0] rest IH]; intro seen; [constructor|].
  rewrite kept_cons. destruct (existsb (Z.eqb i0) seen); [apply IH|].
  simpl. constructor; [|apply IH].
  intro Hin. apply kept_labels_fresh in Hin. apply Hin. now left.
Qed.

Lemma Forall_kept (P : Z -> Prop) (df : list (Z * A)) :
  forall seen : list Z,
    Forall P (map fst df) -> Forall P (map fst (kept seen df)).
Proof.
  induction df as [|[i0 a0] rest IH]; intros seen Hall; [constructor|].
  rewrite kept_cons. simpl in Hall. apply Forall_cons_iff in Hall.
  destruct Hall as [H0 Hall].
  destruct (existsb (Z.eqb i0) seen); [now apply IH|].
  simpl. constructor; [exact H0|now apply IH].
Qed.

Lemma nondecreasing_kept (df : list (Z * A)) :
  forall seen : list Z,
    nondecreasing (map fst df) -> nondecreasing (map fst (kept seen df)).
Proof.
  unfold nondecreasing.
  induction df as [|[i0 a0] rest IH]; intros seen Hs; [constructor|].
  rewrite kept_cons. simpl in Hs. apply StronglySorted_inv in Hs.
  destruct Hs as [Hs Hall].
  destruct (existsb (Z.eqb i0) seen); [now apply IH|].
  simpl. constructor; [now apply IH|now apply Forall_kept].
Qed.

Lemma kept_all (df : list (Z * A)) :
  forall seen : list Z,
    NoDup (map fst df) -> (forall i, In i (map fst df) -> ~ In i seen) ->
    kept seen df = df.
Proof.
  induction df as [|[i0 a0] rest IH]; intros seen Hnd Hfresh; [reflexivity|].
  rewrite kept_cons. simpl in Hnd. apply NoDup_cons_iff in Hnd.
  destruct Hnd as [Hnot Hnd].
  destruct (existsb (Z.eqb i0) seen) eqn:E.
  - apply seen_before in E. exfalso. apply (Hfresh i0); [now left|exact E].
  - f_equal. apply IH; [exact Hnd|].
    intros i Hi [<-|Hin]; [contradiction|].
    apply (Hfresh i); [now right|exact Hin].
Qed.

End Duplicates.

Lemma nondecreasing_NoDup_increasing (idx : list Z) :
  nondecreasing idx -> NoDup idx -> increasing idx.
Proof.
  unfold nondecreasing, increasing.
  induction 1 as [|a l Hs IH Hall]; intro Hnd; constructor.
  - apply IH. now apply NoDup_cons_iff in Hnd.
  - apply NoDup_cons_iff in Hnd. destruct Hnd as [Hnot _].
    rewrite Forall_forall in *. intros x Hx. specialize (Hall x Hx).
    assert (x <> a) by (intros ->; contradiction). lia.
Qed.

(** Deduplication of the index.  Whatever the frame,
    [wind_df[~wind_df.index.duplicated(keep='first')]] has no timestamp
    twice and holds, for every timestamp of the frame, exactly the first row
    that carries it; a frame without duplicates comes back unchanged; and
    when the timestamps arrive in weak order, as after [sort_index], they
    leave strictly increasing. *)
Theorem drop_duplicated_keeps_first (A : Type) (df : list (Z * A)) :
  NoDup (map fst (drop_duplicated df)) /\
  (forall (i : Z) (a : A),
     In (i, a) (drop_duplicated df) <->
     find (fun r => fst r =? i) df = Some (i, a)) /\
  (NoDup (map fst df) -> drop_duplicated df = df) /\
  (nondecreasing (map fst df) -> increasing (map fst (drop_duplicated df))).
Proof.
  unfold drop_duplicated, duplicated.
  split; [apply NoDup_kept|]. split; [|split].
  - intros i a. rewrite In_kept. simpl. tauto.
  - intro Hnd. apply kept_all; [exact Hnd|]. intros i _ [].
  - intro Hs. apply nondecreasing_NoDup_increasing;
      [now apply nondecreasing_kept|apply NoDup_kept].
Qed.

End DataUtilsFacts.

(** * Revenue bounds *)

Lemma productive_sum_bounds (df : DataFrame) :
  Forall (fun r => (0 <= Revenue r)%Q) df ->
  (0 <= column_sum (map Revenue (filter productive df)))%Q /\
  (column_sum (map Revenue (filter productive df)) <= column_sum (map Revenue df))%Q.
Proof.
  unfold column_sum. induction 1 as [|r rest Hr Hall [IH0 IH1]]; simpl.
  - split; apply Qle_refl.
  - destruct (productive r); simpl; lra.
Qed.

Lemma Revenue_input_columns (df : DataFrame) :
  map Revenue (input_columns df) = map Revenue df.
Proof.
  unfold input_columns, assign_visit, assign_pressure. rewrite !map_map.
  now apply map_ext.
Qed.

Lemma Revenue_of_input_columns (df1 df2 : DataFrame) :
  input_columns df1 = input_columns df2 -> map Revenue df1 = map Revenue df2.
Proof.
  intro E. rewrite <- (Revenue_input_columns df1), <- (Revenue_input_columns df2).
  now rewrite E.
Qed.

Section RevenueBounds.

Context {S : Type} `{MaintenanceStrategy S}.

(** Downtime never adds revenue when no record has a negative revenue.  On
    a frame whose revenues are all non-negative, the revenue calculator
    returns at most the sum of all revenues minus the cost of the visits and
    at least minus that cost, whatever the pressures and visit flags. *)
Theorem calculate_revenue_bounds (this : S) (df : DataFrame) :
  Forall (fun r => (0 <= Revenue r)%Q) df ->
  (- inject_Z (n_visits this * VESSEL_COST) <= calculate_revenue this df)%Q /\
  (calculate_revenue this df <=
   column_sum (map Revenue df) - inject_Z (n_visits this * VESSEL_COST))%Q.
Proof.
  intro Hall. destruct (productive_sum_bounds df Hall) as [H0 H1].
  unfold calculate_revenue. split; lra.
Qed.

End RevenueBounds.

Lemma calculate_revenue_bounds_witness :
  (- inject_Z (n_visits Samples.eager * VESSEL_COST) <=
   calculate_revenue Samples.eager Samples.three_hours)%Q /\
  (calculate_revenue Samples.eager Samples.three_hours <=
   column_sum (map Revenue Samples.three_hours)
   - inject_Z (n_visits Samples.eager * VESSEL_COST))%Q.
Proof.
  apply (calculate_revenue_bounds Samples.eager Samples.three_hours).
  repeat constructor; discriminate.
Defined.

(** * From the joined frame to the net revenue *)

Module PipelineFacts.

Import DataUtils.

Lemma apply_calculate_power_some (power_curve : PowerCurve) (speeds : list Q) :
  power_curve <> [] ->
  exists powers,
    apply_calculate_power power_curve speeds = Some powers /\
    List.length powers = List.length speeds /\
    Forall (fun power => exists entry, In entry power_curve /\ power = snd entry) powers.
Proof.
  intro Hne. induction speeds as [|speed rest (powers & E & Hlen & Hall)].
  - exists []. now repeat split.
  - destruct (DataUtilsFacts.calculate_power_least power_curve speed Hne)
      as (i & entry & Hi & Hres & _).
    exists (snd entry :: powers). simpl. rewrite Hres, E.
    split; [reflexivity|]. split; [now rewrite Hlen|].
    constructor; [|exact Hall]. exists entry. split; [|reflexivity].
    eapply nth_error_In. exact Hi.
Qed.

Lemma combine_generate_rows (rows : list Joined) :
  forall powers : list Q,
    List.length powers = List.length rows ->
    Forall (fun power => (0 <= power)%Q) powers ->
    Forall (fun row => (0 <= j_price row)%Q) rows ->
    let df := map (fun rp => generate_row (j_index (fst rp)) (j_speed (fst rp))
                               (j_price (fst rp)) (snd rp))
                  (combine rows powers) in
    labels df = map j_index rows /\
    map Price df = map j_price rows /\
    Forall (fun r => (0 <= Revenue r)%Q) df.
Proof.
  induction rows as [|row rest IH]; intros [|power powers] Hlen Hpow Hprice;
    simpl in *; try discriminate.
  - repeat split. constructor.
  - apply Forall_cons_iff in Hpow, Hprice.
    destruct Hpow as [Hp Hpow]. destruct Hprice as [Hq Hprice].
    destruct (IH powers) as (Hl & Hpr & Hall); [lia|assumption|assumption|].
    unfold labels in *. simpl. rewrite Hl, Hpr. repeat split.
    constructor; [|exact Hall]. simpl. now apply Qmult_le_0_compat.
Qed.

Section Pipeline.

Context {S : Type} `{MaintenanceStrategy S}.

(** From speeds and prices to net revenue.  With a power curve that has
    entries and no negative power, and a joined frame that has rows and no
    negative price, the power lookup, the simulator and the revenue
    calculator all return: the frame keeps the timestamps and prices of the
    joined rows, and the net revenue lies between minus the cost of the
    visits and the sum of all record revenues minus that cost. *)
Theorem net_revenue_of_pipeline
    (power_curve : PowerCurve) (rows : list Joined) (this : S) :
  power_curve <> [] ->
  rows <> [] ->
  Forall (fun entry => (0 <= snd entry)%Q) power_curve ->
  Forall (fun row => (0 <= j_price row)%Q) rows ->
  exists (df : DataFrame) (s : S) (out : DataFrame),
    power_and_revenue power_curve rows = Some df /\
    add_downtimes this df = Some (s, out) /\
    labels out = map j_index rows /\
    map Price out = map j_price rows /\
    (- inject_Z (n_visits s * VESSEL_COST) <= calculate_revenue s out)%Q /\
    (calculate_revenue s out <=
     column_sum (map Revenue df) - inject_Z (n_visits s * VESSEL_COST))%Q.
Proof.
  intros Hcurve Hrows Hpow Hprice.
  destruct (apply_calculate_power_some power_curve (map j_speed rows) Hcurve)
    as (powers & E & Hlen & Hfrom).
  rewrite length_map in Hlen.
  assert (Hnonneg : Forall (fun power => (0 <= power)%Q) powers).
  { rewrite Forall_forall in *. intros power Hin.
    destruct (Hfrom power Hin) as (entry & Hentry & ->). now apply Hpow. }
  destruct (combine_generate_rows rows powers Hlen Hnonneg Hprice) as (Hl & Hpr & Hall).
  set (df := map (fun rp => generate_row (j_index (fst rp)) (j_speed (fst rp))
                              (j_price (fst rp)) (snd rp))
                 (combine rows powers)) in *.
  assert (Hdf : df <> []).
  { intro Hnil. rewrite Hnil in Hl. destruct rows; [congruence|discriminate]. }
  destruct (add_downtimes_total this df Hdf) as (s & out & Hrun).
  pose proof (add_downtimes_input_columns this s df out Hrun) as Hin.
  exists df, s, out.
  split; [unfold power_and_revenue; now rewrite E|].
  split; [exact Hrun|].
  split; [rewrite <- Hl; now apply labels_of_input_columns|].
  split.
  { rewrite <- Hpr. clear - Hin. unfold input_columns, assign_visit, assign_pressure in Hin.
    rewrite !map_map in Hin.
    apply (f_equal (map Price)) in Hin. now rewrite !map_map in Hin. }
  assert (Hout : Forall (fun r => (0 <= Revenue r)%Q) out).
  { apply Forall_forall. intros r Hr.
    apply (in_map Revenue) in Hr. rewrite (Revenue_of_input_columns _ _ Hin) in Hr.
    apply in_map_iff in Hr. destruct Hr as (r' & <- & Hr').
    rewrite Forall_forall in Hall. now apply Hall. }
  destruct (productive_sum_bounds out Hout) as [H0 H1].
  rewrite (Revenue_of_input_columns _ _ Hin) in H1.
  unfold calculate_revenue. split; lra.
Qed.

End Pipeline.

Lemma net_revenue_of_pipeline_witness :
  exists (df : DataFrame) (s : ConditionMonitoring) (out : DataFrame),
    power_and_revenue sample_curve sample_joined = Some df /\
    add_downtimes Samples.eager df = Some (s, out) /\
    labels out = map j_index sample_joined /\
    map Price out = map j_price sample_joined /\
    (- inject_Z (n_visits s * VESSEL_COST) <= calculate_revenue s out)%Q /\
    (calculate_revenue s out <=
     column_sum (map Revenue df) - inject_Z (n_visits s * VESSEL_COST))%Q.
Proof.
  apply (net_revenue_of_pipeline sample_curve sample_joined Samples.eager).
  - discriminate.
  - discriminate.
  - repeat constructor; discriminate.
  - repeat constructor; discriminate.
Defined.

End PipelineFacts.

(** * Invariants of a run *)

Lemma increasing_nth_le (idx : list Z) :
  increasing idx ->
  forall (i j : nat) (a b : Z),
    (i <= j)%nat -> nth_error idx i = Some a -> nth_error idx j = Some b -> a <= b.
Proof.
  unfold increasing. induction 1 as [|x l Hs IH Hall]; intros i j a b Hij Hi Hj.
  - destruct i; discriminate.
  - destruct i as [|i], j as [|j]; simpl in Hi, Hj.
    + injection Hi as <-. injection Hj as <-. lia.
    + injection Hi as <-. rewrite Forall_forall in Hall.
      apply nth_error_In in Hj. specialize (Hall b Hj). lia.
    + lia.
    + apply (IH i j); [lia|assumption|assumption].
Qed.

Lemma increasing_nth_inj (idx : list Z) (i j : nat) (a : Z) :
  increasing idx -> nth_error idx i = Some a -> nth_error idx j = Some a -> i = j.
Proof.
  intros Hinc Hi Hj. apply increasing_NoDup in Hinc.
  apply (proj1 (NoDup_nth_error idx) Hinc).
  - apply nth_error_Some. congruence.
  - congruence.
Qed.

Section RunInvariants.

Context {S : Type} `{MaintenanceStrategy S}.

Lemma state_before_0 (this : S) (df : DataFrame) :
  state_before this df 0 = enter this df.
Proof. unfold state_before. now destruct (enter this df). Qed.

Lemma row_at_in_range (df : DataFrame) (k : nat) :
  (k < List.length df)%nat -> exists row, row_at df k = Some row.
Proof.
  intro Hk. unfold row_at.
  destruct (nth_error (assign_visit 0 (assign_pressure None df)) k) as [row|] eqn:E;
    [now exists row|].
  apply nth_error_None in E. unfold assign_visit, assign_pressure in E.
  rewrite !length_map in E. lia.
Qed.

Lemma row_at_range (df : DataFrame) (k : nat) (row : Row) :
  row_at df k = Some row -> (k < List.length df)%nat.
Proof.
  unfold row_at, assign_visit, assign_pressure. intro E.
  assert (Hs : nth_error (map (set_visit 0) (map (set_pressure None) df)) k <> None)
    by congruence.
  apply nth_error_Some in Hs. now rewrite !length_map in Hs.
Qed.

Lemma state_before_pred (this : S) (df : DataFrame) (k : nat) (row : Row) (st' : Frame S) :
  row_at df k = Some row ->
  state_before this df (Datatypes.S k) = Some st' ->
  exists st, state_before this df k = Some st /\ body row st = Some st'.
Proof.
  intros Hr Hs'.
  destruct (run_through this df k row Hr) as (st & st1 & _ & Hs & E1 & _).
  exists st. split; [exact Hs|].
  rewrite (state_before_step this df k row st Hr Hs) in Hs'. exact Hs'.
Qed.

(* Induction along a run: a property of the entry state that every
   iteration preserves holds of every state of the run. *)
Lemma run_invariant (this : S) (df : DataFrame) (P : nat -> Frame S -> Prop) :
  (forall st0, enter this df = Some st0 -> P 0%nat st0) ->
  (forall k row st st',
     row_at df k = Some row -> state_before this df k = Some st -> P k st ->
     body row st = Some st' -> P (Datatypes.S k) st') ->
  forall k st,
    (k <= List.length df)%nat -> state_before this df k = Some st -> P k st.
Proof.
  intros H0 Hstep. induction k as [|k IH]; intros st Hk Hs.
  - apply H0. now rewrite <- state_before_0.
  - destruct (row_at_in_range df k) as [row Hr]; [lia|].
    destruct (state_before_pred this df k row st Hr Hs) as (st0 & Hs0 & E).
    apply (Hstep k row st0 st Hr Hs0); [|exact E].
    apply IH; [lia|exact Hs0].
Qed.

(* The record a run leaves at position [k], read off the iteration on the
   [k]-th row. *)
Lemma output_record
    (this s : S) (df out : DataFrame) (k : nat) (row r : Row) (st : Frame S) :
  NoDup (labels df) ->
  row_at df k = Some row ->
  state_before this df k = Some st ->
  add_downtimes this df = Some (s, out) ->
  nth_error out k = Some r ->
  (drops_trigger row st = true /\ r = row) \/
  (drops_trigger row st = false /\
   exists st1,
     body row st = Some st1 /\
     r = set_pressure (Some (current_pressure st1))
           (if pending_visit st || starts_visit row st then set_visit 1 row else row)).
Proof.
  intros Hnd Hr Hs Hrun Hk.
  destruct (run_through this df k row Hr) as (st' & st1 & stf & Hs' & E1 & Ef & Hrun').
  rewrite Hs in Hs'. injection Hs' as <-.
  rewrite Hrun in Hrun'. injection Hrun' as _ ->.
  pose proof (row_untouched_before this df k row st Hnd Hr Hs) as Hrow.
  assert (Hfin : forall r1, nth_error (wind_df st1) k = Some r1 ->
                            index r1 = index row -> r = r1).
  { intros r1 H1 Hi.
    pose proof (row_settled_after df k row r1 st1 stf Hnd Hr Ef H1 Hi). congruence. }
  destruct (body_cases row st) as [Hc|[[Hp Hc]|[Hc|Hc]]].
  - right. split; [unfold drops_trigger; now rewrite Hc|].
    exists st1. split; [exact E1|].
    rewrite (body_pending _ _ Hc) in E1. injection E1 as <-.
    pose proof (nth_finish_step_self (index row) (decline st) k row Hrow eq_refl) as Hn.
    simpl pending_visit in Hn. rewrite Hc in Hn. rewrite Hc. simpl orb.
    now apply Hfin.
  - right. split; [unfold drops_trigger; rewrite Hc; now rewrite andb_false_r|].
    exists st1. split; [exact E1|].
    rewrite (body_quiet _ _ Hc) in E1. injection E1 as <-.
    pose proof (nth_finish_step_self (index row) (decline st) k row Hrow eq_refl) as Hn.
    simpl pending_visit in Hn. rewrite Hp in Hn.
    unfold starts_visit. rewrite Hp, Hc. simpl.
    now apply Hfin.
  - left. split; [exact Hc|].
    rewrite (body_dropped _ _ Hc) in E1. injection E1 as <-.
    now apply Hfin.
  - right. split.
    { unfold drops_trigger, starts_visit in *.
      apply andb_prop in Hc. destruct Hc as [-> Hw].
      apply negb_true_iff in Hw. now rewrite Hw. }
    exists st1. split; [exact E1|].
    rewrite (body_started _ _ Hc) in E1.
    destruct (record_visit (index row) (decline st)) as [st2|] eqn:E2; [|discriminate].
    injection E1 as <-. apply record_visit_inv in E2. destruct E2 as (e & _ & ->).
    match goal with |- context [finish_step _ ?f] => set (st2 := f) end.
    assert (Hk2 : nth_error (wind_df st2) k = Some (set_visit 1 row)).
    { subst st2. simpl. rewrite nth_loc_set_visit, Hrow. simpl.
      now rewrite Z.eqb_refl. }
    pose proof (nth_finish_step_self (index row) st2 k _ Hk2 eq_refl) as Hn.
    change (pending_visit st2) with true in Hn. cbv iota in Hn.
    rewrite Hc, orb_true_r. now apply Hfin.
Qed.

End RunInvariants.

(** * Runs in which no step asks for a vessel *)

Section QuietRun.

Context {S : Type} `{MaintenanceStrategy S}.



End QuietRun.


(** * The decline in binary64 *)

Module Binary64Facts.

Import PrimFloat.


End Binary64Facts.

Section PressureInvariants.

Context {S : Type} `{MaintenanceStrategy S}.

(* When no visit is pending, the end timestamp the loop holds (the sentinel
   or the end of a finished visit) is the timestamp of no row still to come. *)
Lemma idle_end_is_behind (this : S) (df : DataFrame) :
  increasing (labels df) ->
  forall k st,
    (k <= List.length df)%nat -> state_before this df k = Some st ->
    pending_visit st = false ->
    forall j x, (k <= j)%nat -> nth_error (labels df) j = Some x ->
                x <> end_visit_ts st.
Proof.
  intro Hinc.
  apply (run_invariant this df
           (fun k st => pending_visit st = false ->
                        forall j x, (k <= j)%nat -> nth_error (labels df) j = Some x ->
                                    x <> end_visit_ts st)).
  - intros st0 E0 _ j x _ Hj. destruct (enter_inv _ _ _ E0) as [_ ->]. simpl.
    apply nth_error_In in Hj. pose proof (increasing_le_last _ _ Hinc Hj).
    unfold Calendar.timedelta_days, Calendar.SECONDS_PER_DAY. lia.
  - intros k row st st' Hr Hs IH E Hp' j x Hkj Hj.
    pose proof (row_at_label df k row Hr) as Hlk.
    assert (Hown : x <> index row).
    { intros ->. pose proof (increasing_nth_inj _ _ _ _ Hinc Hlk Hj). lia. }
    destruct (body_cases row st) as [Hc|[[Hp Hc]|[Hc|Hc]]].
    + rewrite (body_pending _ _ Hc) in E. injection E as <-.
      rewrite pending_finish_step in Hp'. simpl in Hp'. rewrite Hc in Hp'. simpl in Hp'.
      apply negb_false_iff, Z.eqb_eq in Hp'.
      rewrite end_finish_step. simpl. congruence.
    + rewrite (body_quiet _ _ Hc) in E. injection E as <-.
      rewrite end_finish_step. simpl. apply (IH Hp j); [lia|exact Hj].
    + rewrite (body_dropped _ _ Hc) in E. injection E as <-. simpl.
      unfold drops_trigger in Hc. destruct (pending_visit st) eqn:Hp; [discriminate|].
      apply (IH eq_refl j); [lia|exact Hj].
    + rewrite (body_started _ _ Hc) in E.
      destruct (record_visit (index row) (decline st)) as [st2|] eqn:E2; [|discriminate].
      injection E as <-. apply record_visit_inv in E2. destruct E2 as (e & _ & ->).
      rewrite pending_finish_step in Hp'. simpl in Hp'.
      apply negb_false_iff, Z.eqb_eq in Hp'.
      rewrite end_finish_step. simpl. congruence.
Qed.

(* The current pressure never exceeds the initial one. *)
Lemma pressure_at_most_initial (this : S) (df : DataFrame) :
  forall k st,
    (k <= List.length df)%nat -> state_before this df k = Some st ->
    (current_pressure st <= INIT_PRES)%Q.
Proof.
  apply (run_invariant this df (fun _ st => (current_pressure st <= INIT_PRES)%Q)).
  - intros st0 E0. destruct (enter_inv _ _ _ E0) as [_ ->]. simpl. apply Qle_refl.
  - intros k row st st' _ _ IH E.
    assert (Hd : (current_pressure (decline st) <= INIT_PRES)%Q).
    { simpl. unfold DECLINE_RATE. lra. }
    assert (Hfin : forall st2 : Frame S,
               (current_pressure st2 <= INIT_PRES)%Q ->
               (current_pressure (finish_step (index row) st2) <= INIT_PRES)%Q).
    { intros st2 H2. rewrite pressure_finish_step.
      destruct (index row =? end_visit_ts st2); [apply Qle_refl|exact H2]. }
    destruct (body_cases row st) as [Hc|[[_ Hc]|[Hc|Hc]]].
    + rewrite (body_pending _ _ Hc) in E. injection E as <-. now apply Hfin.
    + rewrite (body_quiet _ _ Hc) in E. injection E as <-. now apply Hfin.
    + rewrite (body_dropped _ _ Hc) in E. now injection E as <-.
    + rewrite (body_started _ _ Hc) in E.
      destruct (record_visit (index row) (decline st)) as [st2|] eqn:E2; [|discriminate].
      injection E as <-. apply record_visit_inv in E2. destruct E2 as (e & _ & ->).
      now apply Hfin.
Qed.

(* The record of a row that no visit covers and whose pressure was written:
   the strategy did not ask for a vessel on it, and the pressure written is
   the declined one. *)
Lemma unflagged_record
    (this s : S) (df out : DataFrame) (k : nat) (row r : Row) (st : Frame S) (p : Q) :
  increasing (labels df) ->
  row_at df k = Some row ->
  state_before this df k = Some st ->
  add_downtimes this df = Some (s, out) ->
  nth_error out k = Some r ->
  visit r = 0 -> pressure r = Some p ->
  pending_visit st = false /\ send_vessel row st = false /\
  p = (current_pressure st - DECLINE_RATE)%Q /\
  index r = index row /\ Speed r = Speed row /\ Price r = Price row.
Proof.
  intros Hinc Hr Hs Hrun Hk Hv Hp.
  pose proof (increasing_NoDup _ Hinc) as Hnd.
  destruct (row_at_fresh df k row Hr) as [Hrp Hrv].
  destruct (output_record this s df out k row r st Hnd Hr Hs Hrun Hk)
    as [[_ ->]|[Hnd' (st1 & E1 & ->)]]; [congruence|].
  destruct (pending_visit st) eqn:Hpend; [simpl in Hv; discriminate|].
  destruct (starts_visit row st) eqn:Hst; [simpl in Hv; discriminate|].
  assert (Hq : send_vessel row st = false).
  { unfold drops_trigger, starts_visit in *. rewrite Hpend in *. simpl in *.
    destruct (send_vessel row st); [|reflexivity].
    destruct (Qgtb (Speed row) MAX_WIND_SPEED); discriminate. }
  rewrite (body_quiet _ _ Hq) in E1. injection E1 as <-.
  assert (Hne : index row <> end_visit_ts st).
  { pose proof (row_at_range df k row Hr) as Hlen.
    apply (idle_end_is_behind this df Hinc k st ltac:(lia) Hs Hpend k (index row) (le_n k)).
    now apply row_at_label. }
  assert (Hcp : current_pressure (finish_step (index row) (decline st)) =
                (current_pressure st - DECLINE_RATE)%Q).
  { rewrite pressure_finish_step.
    change (end_visit_ts (decline st)) with (end_visit_ts st).
    apply Z.eqb_neq in Hne. now rewrite Hne. }
  cbn [pressure set_pressure] in Hp. rewrite Hcp in Hp. injection Hp as <-.
  now repeat split.
Qed.

(** Recorded pressures.  In a run over a series with increasing timestamps
    every pressure that is recorded is at most INIT_PRES, and a record that
    no visit covers carries a pressure at least one DECLINE_RATE below
    INIT_PRES: the value of the reset is only ever recorded on a record
    flagged as visit. *)
Theorem recorded_pressure_bounds
    (this s : S) (df out : DataFrame) (k : nat) (r : Row) (p : Q) :
  increasing (labels df) ->
  add_downtimes this df = Some (s, out) ->
  nth_error out k = Some r ->
  pressure r = Some p ->
  (p <= INIT_PRES)%Q /\
  (visit r = 0 -> (p <= INIT_PRES - DECLINE_RATE)%Q).
Proof.
  intros Hinc Hrun Hk Hp.
  pose proof (increasing_NoDup _ Hinc) as Hnd.
  assert (Hlab : labels out = labels df).
  { apply labels_of_input_columns. eapply add_downtimes_input_columns. exact Hrun. }
  destruct (same_labels_nth out (input_columns df) k r) as (row & Hr & _);
    [now rewrite labels_input_columns|exact Hk|].
  change (row_at df k = Some row) in Hr.
  pose proof (row_at_range df k row Hr) as Hlen.
  destruct (run_through this df k row Hr) as (st & st1 & _ & Hs & E1 & _).
  split.
  - destruct (row_at_fresh df k row Hr) as [Hrp _].
    destruct (output_record this s df out k row r st Hnd Hr Hs Hrun Hk)
      as [[_ ->]|[_ (st1' & E1' & ->)]]; [congruence|].
    simpl in Hp. injection Hp as <-.
    apply (pressure_at_most_initial this df (Datatypes.S k) st1'); [lia|].
    now rewrite (state_before_step this df k row st Hr Hs).
  - intro Hv.
    destruct (unflagged_record this s df out k row r st p Hinc Hr Hs Hrun Hk Hv Hp)
      as (_ & _ & -> & _).
    pose proof (pressure_at_most_initial this df k st ltac:(lia) Hs). lra.
Qed.

End PressureInvariants.

(* The eager strategy on the frame whose first hour is windy: the last
   record carries the reset value and is flagged. *)
Lemma recorded_pressure_bounds_witness :
  exists (s : ConditionMonitoring) (out : DataFrame) (r : Row) (p : Q),
    add_downtimes Samples.eager Samples.windy_start = Some (s, out) /\
    nth_error out 2 = Some r /\ pressure r = Some p /\
    (p <= INIT_PRES)%Q /\
    (visit r = 0 -> (p <= INIT_PRES - DECLINE_RATE)%Q).
Proof.
  destruct (add_downtimes Samples.eager Samples.windy_start) as [[s out]|] eqn:E;
    [|vm_compute in E; discriminate].
  destruct (nth_error out 2) as [r|] eqn:Er;
    [|vm_compute in E; injection E as <- <-; discriminate].
  destruct (pressure r) as [p|] eqn:Ep;
    [|vm_compute in E; injection E as <- <-; vm_compute in Er;
      injection Er as <-; discriminate].
  exists s, out, r, p. split; [reflexivity|]. split; [exact Er|]. split; [exact Ep|].
  apply (recorded_pressure_bounds Samples.eager s Samples.windy_start out 2 r p);
    try assumption.
  apply increasingb_sound. reflexivity.
Defined.

(** * What the two strategies guarantee *)

Section SelfInvariant.

Context {S : Type} `{MaintenanceStrategy S}.

(* An iteration leaves the strategy object alone or adds one visit. *)
Lemma self_after_body (row : Row) (st st' : Frame S) :
  body row st = Some st' ->
  (starts_visit row st = false /\ self st' = self st) \/
  (starts_visit row st = true /\
   self st' = set_n_visits (n_visits (self st) + 1) (self st)).
Proof.
  intro E. destruct (body_cases row st) as [Hc|[[Hp Hc]|[Hc|Hc]]].
  - left. rewrite (body_pending _ _ Hc) in E. injection E as <-.
    split; [unfold starts_visit; now rewrite Hc|now rewrite self_finish_step].
  - left. rewrite (body_quiet _ _ Hc) in E. injection E as <-.
    split; [unfold starts_visit; rewrite Hc; now rewrite andb_false_r|
            now rewrite self_finish_step].
  - left. rewrite (body_dropped _ _ Hc) in E. injection E as <-.
    split; [|reflexivity].
    unfold drops_trigger, starts_visit in *.
    apply andb_prop in Hc. destruct Hc as [-> ->]. reflexivity.
  - right. split; [exact Hc|]. rewrite (body_started _ _ Hc) in E.
    destruct (record_visit (index row) (decline st)) as [st2|] eqn:E2; [|discriminate].
    injection E as <-. apply record_visit_inv in E2. destruct E2 as (e & _ & ->).
    now rewrite self_finish_step.
Qed.

(* A property of the strategy object that the visit counter does not touch
   holds throughout a run. *)
Lemma self_invariant (this : S) (df : DataFrame) (P : S -> Prop) :
  P this ->
  (forall n s, P s -> P (set_n_visits n s)) ->
  forall k st,
    (k <= List.length df)%nat -> state_before this df k = Some st -> P (self st).
Proof.
  intros H0 Hset. apply (run_invariant this df (fun _ st => P (self st))).
  - intros st0 E0. now destruct (enter_inv _ _ _ E0) as [_ ->].
  - intros k row st st' _ _ IH E.
    destruct (self_after_body row st st' E) as [[_ ->]|[_ ->]]; [exact IH|now apply Hset].
Qed.

End SelfInvariant.



(** Scheduled maintenance.  In a run of a scheduled strategy over a series
    with increasing timestamps, no record on the scheduled calendar date
    counts for the revenue: each of them is flagged as visit or, when the
    wind gate dropped its trigger, has no recorded pressure. *)
Theorem scheduled_date_earns_nothing
    (this s : ScheduledMaintenance) (df out : DataFrame) (k : nat) (r : Row) :
  increasing (labels df) ->
  add_downtimes this df = Some (s, out) ->
  nth_error out k = Some r ->
  Calendar.month_of (index r) = month this ->
  Calendar.day_of (index r) = day this ->
  (visit r = 1 \/ pressure r = None) /\ productive r = false.
Proof.
  intros Hinc Hrun Hk Hm Hd.
  pose proof (increasing_NoDup _ Hinc) as Hnd.
  destruct (same_labels_nth out (input_columns df) k r) as (row & Hr & Hi);
    [rewrite labels_input_columns; apply labels_of_input_columns;
     exact (add_downtimes_input_columns this s df out Hrun)|exact Hk|].
  change (row_at df k = Some row) in Hr.
  pose proof (row_at_range df k row Hr) as Hlen.
  destruct (run_through this df k row Hr) as (st & _ & _ & Hs & _).
  destruct (row_at_fresh df k row Hr) as [Hrp Hrv].
  assert (Hcases : visit r = 1 \/ pressure r = None \/
                   (visit r = 0 /\ exists p, pressure r = Some p)).
  { destruct (output_record this s df out k row r st Hnd Hr Hs Hrun Hk)
      as [[_ ->]|[_ (st1 & _ & ->)]]; [right; left; exact Hrp|].
    destruct (pending_visit st || starts_visit row st); simpl;
      [now left|right; right; split; [exact Hrv|now eexists]]. }
  assert (Hgoal : visit r = 1 \/ pressure r = None).
  { destruct Hcases as [Hv|[Hp|[Hv (p & Hp)]]]; [now left|now right|]. exfalso.
    destruct (unflagged_record this s df out k row r st p Hinc Hr Hs Hrun Hk Hv Hp)
      as (_ & Hq & _ & Hir & _).
    assert (Hdate : month (self st) = month this /\ day (self st) = day this).
    { apply (self_invariant this df
               (fun s' => month s' = month this /\ day s' = day this))
        with (k := k); [now split| |lia|exact Hs].
      intros n s' Hs'. exact Hs'. }
    destruct Hdate as [Hms Hds].
    unfold send_vessel in Hq. simpl in Hq.
    rewrite Hms, Hds, <- Hir, Hm, Hd, !Z.eqb_refl in Hq. discriminate. }
  split; [exact Hgoal|].
  unfold productive, pressure_ok. destruct Hgoal as [Hv|Hp].
  - rewrite Hv. simpl. apply andb_false_r.
  - now rewrite Hp.
Qed.

Lemma scheduled_date_earns_nothing_witness :
  exists (s : ScheduledMaintenance) (out : DataFrame) (r : Row),
    add_downtimes (mkScheduled 0 "Scheduled Maintenance" 1 1) Samples.three_hours
      = Some (s, out) /\
    nth_error out 0 = Some r /\
    (visit r = 1 \/ pressure r = None) /\ productive r = false.
Proof.
  destruct (add_downtimes (mkScheduled 0 "Scheduled Maintenance" 1 1) Samples.three_hours)
    as [[s out]|] eqn:E; [|vm_compute in E; discriminate].
  destruct (nth_error out 0) as [r|] eqn:Er;
    [|vm_compute in E; injection E as <- <-; discriminate].
  exists s, out, r. split; [reflexivity|]. split; [exact Er|].
  apply (scheduled_date_earns_nothing (mkScheduled 0 "Scheduled Maintenance" 1 1)
           s Samples.three_hours out 0 r); try assumption.
  - apply increasingb_sound. reflexivity.
  - vm_compute in E. injection E as <- <-. vm_compute in Er. now injection Er as <-.
  - vm_compute in E. injection E as <- <-. vm_compute in Er. now injection Er as <-.
Defined.

(** * The visit counter and the visit flags *)

Section CounterAndFlags.

Context {S : Type} `{MaintenanceStrategy S}.

(* What an iteration does to the flag of a row. *)
Lemma visit_after_body (row : Row) (st st' : Frame S) (j : nat) (r' : Row) :
  body row st = Some st' ->
  nth_error (wind_df st') j = Some r' ->
  exists r,
    nth_error (wind_df st) j = Some r /\
    (visit r' = visit r \/
     (visit r' = 1 /\ (pending_visit st = true \/ starts_visit row st = true))).
Proof.
  intros E Hj'.
  destruct (same_labels_nth (wind_df st') (wind_df st) j r') as (r & Hj & _);
    [exact (labels_body row st st' E)|exact Hj'|].
  exists r. split; [exact Hj|].
  assert (Hfin : forall (st2 : Frame S) (r2 : Row),
             nth_error (wind_df st2) j = Some r2 ->
             nth_error (wind_df (finish_step (index row) st2)) j = Some r' ->
             visit r' = visit r2 \/ (visit r' = 1 /\ pending_visit st2 = true)).
  { intros st2 r2 H2 H2'. destruct (Z.eq_dec (index r2) (index row)) as [He|Hne].
    - rewrite (nth_finish_step_self _ st2 j r2 H2 He) in H2'. injection H2' as <-.
      destruct (pending_visit st2); simpl; [right; now split|now left].
    - rewrite (nth_finish_step_other _ st2 j r2 H2 Hne) in H2'. injection H2' as <-.
      now left. }
  destruct (body_cases row st) as [Hc|[[Hp Hc]|[Hc|Hc]]].
  - rewrite (body_pending _ _ Hc) in E. injection E as <-.
    destruct (Hfin (decline st) r Hj Hj') as [Hv|[Hv _]]; [now left|].
    right. split; [exact Hv|now left].
  - rewrite (body_quiet _ _ Hc) in E. injection E as <-.
    destruct (Hfin (decline st) r Hj Hj') as [Hv|[_ Hq]]; [now left|].
    simpl in Hq. congruence.
  - rewrite (body_dropped _ _ Hc) in E. injection E as <-. simpl in Hj'.
    left. congruence.
  - rewrite (body_started _ _ Hc) in E.
    destruct (record_visit (index row) (decline st)) as [st2|] eqn:E2; [|discriminate].
    injection E as <-. apply record_visit_inv in E2. destruct E2 as (e & _ & ->).
    match type of Hj' with context [finish_step _ ?f] => set (st2 := f) in * end.
    assert (H2 : nth_error (wind_df st2) j =
                 Some (if index r =? index row then set_visit 1 r else r)).
    { subst st2. simpl. now rewrite nth_loc_set_visit, Hj. }
    destruct (Hfin st2 _ H2 Hj') as [Hv|[Hv _]].
    + destruct (index r =? index row); [|now left].
      right. split; [exact Hv|now right].
    + right. split; [exact Hv|now right].
Qed.

(* Throughout a run: the counter has grown by at most one per processed row,
   every flag is 0 or 1, and the counter has grown exactly when a visit is
   pending or some row is flagged. *)
Lemma counter_and_flags (this : S) (df : DataFrame) :
  forall k st,
    (k <= List.length df)%nat -> state_before this df k = Some st ->
    n_visits this <= n_visits (self st) <= n_visits this + Z.of_nat k /\
    (forall j r, nth_error (wind_df st) j = Some r -> visit r = 0 \/ visit r = 1) /\
    (pending_visit st = true -> n_visits this < n_visits (self st)) /\
    ((exists j r, nth_error (wind_df st) j = Some r /\ visit r = 1) <->
     n_visits this < n_visits (self st)).
Proof.
  apply (run_invariant this df
    (fun k st =>
       n_visits this <= n_visits (self st) <= n_visits this + Z.of_nat k /\
       (forall j r, nth_error (wind_df st) j = Some r -> visit r = 0 \/ visit r = 1) /\
       (pending_visit st = true -> n_visits this < n_visits (self st)) /\
       ((exists j r, nth_error (wind_df st) j = Some r /\ visit r = 1) <->
        n_visits this < n_visits (self st)))).
  - intros st0 E0. destruct (enter_inv _ _ _ E0) as [_ ->]. simpl.
    assert (Hz : forall j r, nth_error (input_columns df) j = Some r -> visit r = 0).
    { intros j r Hj. unfold input_columns, assign_visit in Hj.
      rewrite nth_error_map in Hj.
      destruct (nth_error (assign_pressure None df) j); [|discriminate].
      simpl in Hj. now injection Hj as <-. }
    split; [lia|]. split; [intros j r Hj; left; now apply (Hz j)|].
    split; [discriminate|]. split.
    + intros (j & r & Hj & Hv). rewrite (Hz j r Hj) in Hv. discriminate.
    + lia.
  - intros k row st st' Hr Hs (Hn & Hflag & Hpend & Hiff) E.
    pose proof (state_before_labels this df k st Hs) as Hlab.
    assert (Hgrow : n_visits (self st) <= n_visits (self st') <= n_visits (self st) + 1 /\
                    (starts_visit row st = true ->
                     n_visits (self st') = n_visits (self st) + 1)).
    { destruct (self_after_body row st st' E) as [[Hst ->]|[Hst ->]].
      - split; [lia|]. congruence.
      - rewrite n_visits_set. split; [lia|reflexivity]. }
    destruct Hgrow as [Hgrow Hstart].
    split; [rewrite Nat2Z.inj_succ; lia|]. split; [|split; [|split]].
    + intros j r' Hj'.
      destruct (visit_after_body row st st' j r' E Hj') as (r & Hj & [Hv|[Hv _]]).
      * rewrite Hv. now apply (Hflag j).
      * now right.
    + intro Hp'. destruct (pending_visit st) eqn:Hp; [specialize (Hpend eq_refl); lia|].
      destruct (starts_visit row st) eqn:Hst; [specialize (Hstart eq_refl); lia|].
      exfalso. destruct (self_after_body row st st' E) as [[_ _]|[Hc _]]; [|congruence].
      destruct (body_cases row st) as [Hc|[[_ Hc]|[Hc|Hc]]]; try congruence.
      * rewrite (body_quiet _ _ Hc) in E. injection E as <-.
        rewrite pending_finish_step in Hp'. simpl in Hp'. rewrite Hp in Hp'. discriminate.
      * rewrite (body_dropped _ _ Hc) in E. injection E as <-. simpl in Hp'. congruence.
    + intros (j & r' & Hj' & Hv').
      destruct (visit_after_body row st st' j r' E Hj') as (r & Hj & [Hv|[_ [Hp|Hst]]]).
      * assert (n_visits this < n_visits (self st))
          by (apply Hiff; exists j, r; split; [exact Hj|congruence]).
        lia.
      * specialize (Hpend Hp). lia.
      * specialize (Hstart Hst). lia.
    + intro Hlt.
      destruct (starts_visit row st) eqn:Hst.
      * (* the row of the trigger is flagged *)
        rewrite (body_started _ _ Hst) in E.
        destruct (record_visit (index row) (decline st)) as [st2|] eqn:E2; [|discriminate].
        injection E as <-. apply record_visit_inv in E2. destruct E2 as (e & _ & ->).
        pose proof (row_at_label df k row Hr) as Hlk.
        rewrite <- Hlab, nth_labels in Hlk.
        destruct (nth_error (wind_df st) k) as [r|] eqn:Hk; [|discriminate].
        simpl in Hlk. injection Hlk as Hi.
        match goal with |- context [finish_step _ ?f] => set (st2 := f) end.
        assert (H2 : nth_error (wind_df st2) k = Some (set_visit 1 r)).
        { subst st2. simpl. rewrite nth_loc_set_visit, Hk. simpl.
          apply Z.eqb_eq in Hi. now rewrite Hi. }
        destruct (visit_finish_step_keeps (index row) st2 k _ H2 eq_refl)
          as (r' & Hr' & Hv' & _).
        exists k, r'. now split.
      * destruct (self_after_body row st st' E) as [[_ Hsame]|[Hc _]]; [|congruence].
        rewrite Hsame in Hlt. apply Hiff in Hlt. destruct Hlt as (j & r & Hj & Hv).
        destruct (visit_body_keeps row st st' j r E Hj Hv) as (r' & Hr' & Hv' & _).
        exists j, r'. now split.
Qed.

(** Visit counter and visit flags.  A run adds to the visit counter of the
    strategy object at least nothing and at most one visit per record, every
    visit flag it leaves is 0 or 1, and the counter has grown exactly when
    some record of the output is flagged as visit. *)
Theorem visit_counter_matches_flags (this s : S) (df out : DataFrame) :
  add_downtimes this df = Some (s, out) ->
  n_visits this <= n_visits s <= n_visits this + Z.of_nat (List.length df) /\
  (forall j r, nth_error out j = Some r -> visit r = 0 \/ visit r = 1) /\
  ((exists j r, nth_error out j = Some r /\ visit r = 1) <->
   n_visits this < n_visits s).
Proof.
  intro Hrun. rewrite add_downtimes_final in Hrun.
  destruct (state_before this df (List.length df)) as [st|] eqn:Es; [|discriminate].
  injection Hrun as <- <-.
  destruct (counter_and_flags this df _ st (le_n _) Es) as (Hn & Hflag & _ & Hiff).
  now repeat split; try apply Hiff.
Qed.

End CounterAndFlags.

Lemma visit_counter_matches_flags_witness :
  exists (s : ConditionMonitoring) (out : DataFrame),
    add_downtimes Samples.eager Samples.windy_start = Some (s, out) /\
    n_visits Samples.eager <= n_visits s <= n_visits Samples.eager + 3 /\
    ((exists j r, nth_error out j = Some r /\ visit r = 1) <->
     n_visits Samples.eager < n_visits s).
Proof.
  destruct (add_downtimes Samples.eager Samples.windy_start) as [[s out]|] eqn:E;
    [|vm_compute in E; discriminate].
  exists s, out. split; [reflexivity|].
  destruct (visit_counter_matches_flags Samples.eager s Samples.windy_start out E)
    as (Hn & _ & Hiff).
  split; [exact Hn|exact Hiff].
Defined.

(** * Flags and visits *)

(* The end computed for a visit is a timestamp of the series at or after the
   trigger. *)
Lemma visit_end_not_before (ind e : Z) (idx : list Z) :
  increasing idx -> In ind idx -> visit_end ind idx = Some e ->
  In e idx /\ ind <= e.
Proof.
  intros Hinc Hin Hve.
  assert (Hne : idx <> []) by (intros ->; contradiction).
  destruct (visit_end_meets_spec ind idx Hne Hinc) as (Hspec & Hine & _).
  rewrite Hve in Hspec. injection Hspec as ->. split; [exact Hine|].
  unfold end_of_visit_spec.
  destruct (find _ idx) as [x|] eqn:Ef.
  - apply find_In_geq in Ef.
    unfold Calendar.timedelta_days, MAINTENANCE_DURATION, Calendar.SECONDS_PER_DAY in Ef.
    lia.
  - now apply increasing_le_last.
Qed.

Section FlagsAndVisits.

Context {S : Type} `{MaintenanceStrategy S}.

(* A pending visit was started at an earlier row, and the row that carries
   its end timestamp is still to come. *)
Lemma pending_visit_has_start (this : S) (df : DataFrame) :
  increasing (labels df) ->
  forall k st,
    (k <= List.length df)%nat -> state_before this df k = Some st ->
    pending_visit st = true ->
    exists (i : nat) (row_i : Row) (st_i : Frame S),
      (i < k)%nat /\ row_at df i = Some row_i /\
      state_before this df i = Some st_i /\
      starts_visit row_i st_i = true /\
      visit_end (index row_i) (labels df) = Some (end_visit_ts st) /\
      exists j', (k <= j')%nat /\ nth_error (labels df) j' = Some (end_visit_ts st).
Proof.
  intro Hinc.
  apply (run_invariant this df
    (fun k st =>
       pending_visit st = true ->
       exists (i : nat) (row_i : Row) (st_i : Frame S),
         (i < k)%nat /\ row_at df i = Some row_i /\
         state_before this df i = Some st_i /\
         starts_visit row_i st_i = true /\
         visit_end (index row_i) (labels df) = Some (end_visit_ts st) /\
         exists j', (k <= j')%nat /\ nth_error (labels df) j' = Some (end_visit_ts st))).
  - intros st0 E0 Hp. destruct (enter_inv _ _ _ E0) as [_ ->]. discriminate.
  - intros k row st st' Hr Hs IH E Hp'.
    pose proof (row_at_label df k row Hr) as Hlk.
    pose proof (state_before_labels this df k st Hs) as Hlab.
    destruct (body_cases row st) as [Hc|[[Hp Hc]|[Hc|Hc]]].
    + rewrite (body_pending _ _ Hc) in E. injection E as <-.
      rewrite pending_finish_step in Hp'. simpl in Hp'. rewrite Hc in Hp'. simpl in Hp'.
      apply negb_true_iff, Z.eqb_neq in Hp'.
      destruct (IH Hc) as (i & row_i & st_i & Hik & Hri & Hsi & Hst & Hve & j' & Hj' & Hlj').
      exists i, row_i, st_i. rewrite end_finish_step. simpl.
      repeat split; try assumption; [lia|].
      exists j'. split; [|exact Hlj'].
      destruct (Nat.eq_dec j' k) as [->|Hne]; [congruence|lia].
    + rewrite (body_quiet _ _ Hc) in E. injection E as <-.
      rewrite pending_finish_step in Hp'. simpl in Hp'. rewrite Hp in Hp'. discriminate.
    + rewrite (body_dropped _ _ Hc) in E. injection E as <-. simpl in Hp'.
      unfold drops_trigger in Hc. rewrite Hp' in Hc. discriminate.
    + rewrite (body_started _ _ Hc) in E.
      destruct (record_visit (index row) (decline st)) as [st2|] eqn:E2; [|discriminate].
      injection E as <-. apply record_visit_inv in E2. destruct E2 as (e & Hve & ->).
      simpl in Hve. rewrite Hlab in Hve.
      rewrite pending_finish_step in Hp'. simpl in Hp'.
      apply negb_true_iff, Z.eqb_neq in Hp'.
      destruct (visit_end_not_before (index row) e (labels df) Hinc) as [Hin Hle];
        [eapply nth_error_In; exact Hlk|exact Hve|].
      exists k, row, st. rewrite end_finish_step. simpl.
      repeat split; try assumption; [lia|].
      apply In_nth_error in Hin. destruct Hin as [j' Hj'].
      exists j'. split; [|exact Hj'].
      destruct (Nat.le_gt_cases j' k) as [Hjk|Hjk]; [|lia].
      pose proof (increasing_nth_le _ Hinc j' k e (index row) Hjk Hj' Hlk). lia.
Qed.

(** Flags only within visits.  In a run over a series with increasing
    timestamps every record that is flagged as visit lies in the interval of
    a visit: some row at or before it started a visit, and the timestamp of
    the record lies between the timestamp of that row and the end timestamp
    computed for that visit. *)
Theorem visit_flag_only_within_visit
    (this s : S) (df out : DataFrame) (j : nat) (r : Row) :
  increasing (labels df) ->
  add_downtimes this df = Some (s, out) ->
  nth_error out j = Some r ->
  visit r = 1 ->
  exists (i : nat) (row_i : Row) (st_i : Frame S) (e : Z),
    (i <= j)%nat /\ row_at df i = Some row_i /\
    state_before this df i = Some st_i /\
    starts_visit row_i st_i = true /\
    visit_end (index row_i) (labels df) = Some e /\
    index row_i <= index r <= e.
Proof.
  intros Hinc Hrun Hj Hv.
  pose proof (increasing_NoDup _ Hinc) as Hnd.
  destruct (same_labels_nth out (input_columns df) j r) as (row & Hr & Hi);
    [rewrite labels_input_columns; apply labels_of_input_columns;
     exact (add_downtimes_input_columns this s df out Hrun)|exact Hj|].
  change (row_at df j = Some row) in Hr.
  pose proof (row_at_range df j row Hr) as Hlen.
  pose proof (row_at_label df j row Hr) as Hlj.
  destruct (run_through this df j row Hr) as (st & _ & _ & Hs & _).
  destruct (row_at_fresh df j row Hr) as [_ Hrv].
  assert (Hact : pending_visit st = true \/ starts_visit row st = true).
  { destruct (output_record this s df out j row r st Hnd Hr Hs Hrun Hj)
      as [[_ ->]|[_ (st1 & _ & ->)]]; [congruence|].
    destruct (pending_visit st); [now left|].
    destruct (starts_visit row st); [now right|].
    simpl in Hv. congruence. }
  destruct Hact as [Hp|Hst].
  - destruct (pending_visit_has_start this df Hinc j st ltac:(lia) Hs Hp)
      as (i & row_i & st_i & Hij & Hri & Hsi & Hsti & Hve & j' & Hj' & Hlj').
    exists i, row_i, st_i, (end_visit_ts st).
    repeat split; try assumption; [lia| |].
    + rewrite <- Hi.
      apply (increasing_nth_le _ Hinc i j); [lia|now apply row_at_label|exact Hlj].
    + rewrite <- Hi. apply (increasing_nth_le _ Hinc j j'); assumption.
  - assert (Hne : labels df <> []) by (intro E; rewrite E in Hlj; destruct j; discriminate).
    destruct (visit_end_total (index row) (labels df) Hne) as (e & Hve & _).
    destruct (visit_end_not_before (index row) e (labels df) Hinc) as [_ Hle];
      [eapply nth_error_In; exact Hlj|exact Hve|].
    exists j, row, st, e. rewrite <- Hi. repeat split; try assumption; lia.
Qed.

(** A dropped trigger costs the record its revenue.  In a run over a series
    with distinct timestamps, the record of a row whose trigger the wind gate
    dropped is not flagged as visit, keeps its revenue column, and is left
    out of the revenue sum. *)
Theorem dropped_trigger_earns_nothing
    (this : S) (df : DataFrame) (k : nat) (row : Row) (st : Frame S) :
  NoDup (labels df) ->
  row_at df k = Some row ->
  state_before this df k = Some st ->
  drops_trigger row st = true ->
  exists (s : S) (out : DataFrame) (r : Row),
    add_downtimes this df = Some (s, out) /\
    nth_error out k = Some r /\
    visit r = 0 /\ Revenue r = Revenue row /\ productive r = false.
Proof.
  intros Hnd Hr Hs Hd.
  destruct (run_through this df k row Hr) as (st' & st1 & stf & Hs' & E1 & Ef & Hrun).
  rewrite Hs in Hs'. injection Hs' as <-.
  rewrite (body_dropped row st Hd) in E1. injection E1 as <-.
  destruct (row_at_fresh df k row Hr) as [Hrp Hrv].
  exists (self stf), (wind_df stf), row. split; [exact Hrun|]. split.
  - apply (row_settled_after df k row row (decline st) stf Hnd Hr Ef); [|reflexivity].
    exact (row_untouched_before this df k row st Hnd Hr Hs).
  - split; [exact Hrv|]. split; [reflexivity|].
    unfold productive, pressure_ok. now rewrite Hrp.
Qed.

End FlagsAndVisits.

Lemma visit_flag_only_within_visit_witness :
  exists (i : nat) (row_i : Row) (st_i : Frame ConditionMonitoring) (e : Z),
    (i <= 2)%nat /\ row_at Samples.windy_start i = Some row_i /\
    state_before Samples.eager Samples.windy_start i = Some st_i /\
    starts_visit row_i st_i = true /\
    visit_end (index row_i) (labels Samples.windy_start) = Some e /\
    index row_i <= 2 * Samples.HOUR <= e.
Proof.
  destruct (add_downtimes Samples.eager Samples.windy_start) as [[s out]|] eqn:E;
    [|vm_compute in E; discriminate].
  destruct (nth_error out 2) as [r|] eqn:Er;
    [|vm_compute in E; injection E as <- <-; discriminate].
  assert (Hr : index r = 2 * Samples.HOUR /\ visit r = 1).
  { vm_compute in E. injection E as <- <-. vm_compute in Er. injection Er as <-.
    now split. }
  destruct Hr as [Hi Hv]. rewrite <- Hi.
  apply (visit_flag_only_within_visit Samples.eager s Samples.windy_start out 2 r);
    try assumption.
  apply increasingb_sound. reflexivity.
Defined.

Lemma dropped_trigger_earns_nothing_witness :
  exists (s : ConditionMonitoring) (out : DataFrame) (r : Row),
    add_downtimes Samples.eager Samples.windy_start = Some (s, out) /\
    nth_error out 0 = Some r /\
    visit r = 0 /\ Revenue r = (1 * 10)%Q /\ productive r = false.
Proof.
  pose (row0 := mkRow 0 6 10 1 (1 * 10)%Q None 0).
  pose (st0 := mkFrame (input_columns Samples.windy_start) INIT_PRES
                 (2 * Samples.HOUR + Calendar.timedelta_days 1) false Samples.eager).
  apply (dropped_trigger_earns_nothing Samples.eager Samples.windy_start 0 row0 st0).
  - apply increasing_NoDup, increasingb_sound. reflexivity.
  - reflexivity.
  - reflexivity.
  - reflexivity.
Defined.

(** * A turbine that is never maintained *)



Section Unmaintained.

Context {S : Type} `{MaintenanceStrategy S}.


End Unmaintained.


(** * A second run with the same strategy object *)

Section SecondRun.

Context {S : Type} `{MaintenanceStrategy S}.

Lemma same_but_self_finish (ind : Z) (st st' : Frame S) :
  same_but_self st st' ->
  self (finish_step ind st') = self st' /\
  wind_df (finish_step ind st') = wind_df (finish_step ind st) /\
  current_pressure (finish_step ind st') = current_pressure (finish_step ind st) /\
  end_visit_ts (finish_step ind st') = end_visit_ts (finish_step ind st) /\
  pending_visit (finish_step ind st') = pending_visit (finish_step ind st).
Proof.
  intros (Hw & Hc & He & Hp & _).
  destruct st as [w c e p s0], st' as [w' c' e' p' s0']. simpl in *. subst.
  unfold finish_step, record_pressure, close_visit, flag_ongoing. simpl.
  destruct p; simpl; destruct (ind =? e); simpl; now repeat split.
Qed.

Lemma same_but_self_body (row : Row) (st st' stf : Frame S) :
  (forall n s p t w c, fix_pressure (set_n_visits n s) p t w c = fix_pressure s p t w c) ->
  same_but_self st st' ->
  body row st = Some stf ->
  exists stf',
    body row st' = Some stf' /\ same_but_self stf stf' /\
    n_visits (self stf') - n_visits (self st') = n_visits (self stf) - n_visits (self st).
Proof.
  intros Hindep Hsim E. pose proof Hsim as (Hw & Hc & He & Hp & Hd).
  assert (Hsend : send_vessel row st' = send_vessel row st).
  { unfold send_vessel. simpl. rewrite Hc. apply Hd. }
  assert (Hdecl : same_but_self (decline st) (decline st')).
  { unfold same_but_self. simpl. rewrite Hw, Hc, He, Hp. now repeat split. }
  assert (Hfin : forall st2 st2' : Frame S,
             same_but_self st2 st2' ->
             same_but_self (finish_step (index row) st2) (finish_step (index row) st2') /\
             self (finish_step (index row) st2') = self st2' /\
             self (finish_step (index row) st2) = self st2).
  { intros st2 st2' Hs2.
    destruct (same_but_self_finish (index row) st2 st2' Hs2) as (H1 & H2 & H3 & H4 & H5).
    split; [|split; [exact H1|apply self_finish_step]].
    unfold same_but_self. rewrite H1, self_finish_step.
    repeat split; try assumption. now destruct Hs2 as (_ & _ & _ & _ & Hd2). }
  destruct (body_cases row st) as [Hcase|[[Hpf Hcase]|[Hcase|Hcase]]].
  - rewrite (body_pending _ _ Hcase) in E. injection E as <-.
    exists (finish_step (index row) (decline st')).
    rewrite body_pending by congruence.
    destruct (Hfin _ _ Hdecl) as (Hs' & H1 & H2).
    split; [reflexivity|]. split; [exact Hs'|]. rewrite H1, H2. simpl. lia.
  - rewrite (body_quiet _ _ Hcase) in E. injection E as <-.
    exists (finish_step (index row) (decline st')).
    rewrite body_quiet by congruence.
    destruct (Hfin _ _ Hdecl) as (Hs' & H1 & H2).
    split; [reflexivity|]. split; [exact Hs'|]. rewrite H1, H2. simpl. lia.
  - rewrite (body_dropped _ _ Hcase) in E. injection E as <-.
    exists (decline st'). rewrite body_dropped.
    + split; [reflexivity|]. split; [exact Hdecl|]. simpl. lia.
    + unfold drops_trigger in *. now rewrite Hp, Hsend.
  - rewrite (body_started _ _ Hcase) in E.
    destruct (record_visit (index row) (decline st)) as [st2|] eqn:E2; [|discriminate].
    injection E as <-. apply record_visit_inv in E2. destruct E2 as (e & Hve & ->).
    set (st2' := mkFrame (loc_set_visit (index row) 1 (wind_df (decline st')))
                   (current_pressure (decline st')) e true
                   (set_n_visits (n_visits (self (decline st')) + 1) (self (decline st')))).
    exists (finish_step (index row) st2').
    rewrite body_started by (unfold starts_visit in *; now rewrite Hp, Hsend).
    assert (E2' : record_visit (index row) (decline st') = Some st2').
    { unfold record_visit. rewrite labels_loc_set_visit.
      change (wind_df (decline st')) with (wind_df st').
      assert (Hl : labels (wind_df st') = labels (wind_df st)) by now rewrite Hw.
      rewrite Hl. simpl in Hve. now rewrite Hve. }
    rewrite E2'.
    match goal with |- context [same_but_self (finish_step _ ?f) _] => set (st2 := f) end.
    assert (Hs2 : same_but_self st2 st2').
    { unfold same_but_self. subst st2 st2'. simpl. rewrite Hw, Hc.
      repeat split. intros p t w c. rewrite !Hindep. apply Hd. }
    destruct (Hfin _ _ Hs2) as (Hs' & H1 & H2).
    split; [reflexivity|]. split; [exact Hs'|]. rewrite H1, H2.
    subst st2 st2'. simpl. rewrite !n_visits_set. lia.
Qed.

Lemma same_but_self_iterrows (rows : list Row) :
  (forall n s p t w c, fix_pressure (set_n_visits n s) p t w c = fix_pressure s p t w c) ->
  forall st st' stf : Frame S,
    same_but_self st st' ->
    iterrows rows st = Some stf ->
    exists stf',
      iterrows rows st' = Some stf' /\ same_but_self stf stf' /\
      n_visits (self stf') - n_visits (self st') = n_visits (self stf) - n_visits (self st).
Proof.
  intro Hindep. induction rows as [|row rest IH]; intros st st' stf Hsim E.
  - injection E as <-. exists st'. split; [reflexivity|]. split; [exact Hsim|lia].
  - rewrite iterrows_cons in E.
    destruct (body row st) as [st1|] eqn:E1; [|discriminate].
    destruct (same_but_self_body row st st' st1 Hindep Hsim E1) as (st1' & E1' & Hsim1 & Hn1).
    destruct (IH st1 st1' stf Hsim1 E) as (stf' & Ef' & Hsimf & Hnf).
    exists stf'. rewrite iterrows_cons, E1'. split; [exact Ef'|]. split; [exact Hsimf|lia].
Qed.

(* A run from the strategy object an earlier run has left, on a frame with
   the input columns of that run: the same annotated frame, and the counter
   grows by the visits of the earlier run once more. *)
Lemma rerun_counts_on (this s : S) (df df' out : DataFrame) :
  (forall n s0 p t w c,
     fix_pressure (set_n_visits n s0) p t w c = fix_pressure s0 p t w c) ->
  input_columns df' = input_columns df ->
  add_downtimes this df = Some (s, out) ->
  exists s2 : S,
    add_downtimes s df' = Some (s2, out) /\
    n_visits s2 = n_visits s + (n_visits s - n_visits this).
Proof.
  intros Hindep Hin Hrun.
  rewrite (add_downtimes_reads_input_columns s df'), Hin,
    <- (add_downtimes_reads_input_columns s df).
  unfold add_downtimes in *.
  destruct (enter this df) as [st0|] eqn:E0; [|discriminate].
  destruct (enter_inv _ _ _ E0) as [Hne ->]. simpl wind_df in Hrun.
  rewrite (enter_total s df Hne). cbv beta iota. simpl wind_df.
  match type of Hrun with context [iterrows _ ?f] => set (st0 := f) in * end.
  destruct (iterrows (input_columns df) st0) as [stf|] eqn:Ef; [|discriminate].
  injection Hrun as Hs Hout.
  assert (Hdec : forall p t w c, fix_pressure s p t w c = fix_pressure this p t w c).
  { rewrite <- Hs.
    assert (Hfinal : state_before this df (List.length df) = Some stf).
    { unfold state_before. rewrite E0. simpl wind_df.
      replace (List.length df) with (List.length (input_columns df))
        by (unfold input_columns, assign_visit, assign_pressure; now rewrite !length_map).
      now rewrite firstn_all. }
    apply (self_invariant this df
             (fun s' => forall p t w c, fix_pressure s' p t w c = fix_pressure this p t w c))
      with (k := List.length df); [reflexivity| |apply le_n|exact Hfinal].
    intros n s' Hs' p t w c. now rewrite Hindep. }
  match goal with |- context [iterrows _ ?f] => set (st0' := f) end.
  assert (Hsim : same_but_self st0 st0').
  { unfold same_but_self. subst st0 st0'. simpl. now repeat split. }
  destruct (same_but_self_iterrows _ Hindep st0 st0' stf Hsim Ef)
    as (stf' & Ef' & (Hw & _) & Hn).
  rewrite Ef'. exists (self stf'). rewrite Hw, Hout. split; [reflexivity|].
  subst st0 st0'. simpl in Hn. rewrite Hs in Hn. lia.
Qed.

(** The visit counter is never reset by a run.  For a strategy whose
    decision does not read its visit counter, a second run of the simulator
    with the strategy object and the frame that the first run returned
    reproduces the annotated frame and adds the visits of the first run to
    the counter once more: the counter of the second run is not the number
    of visits of that run. *)
Theorem second_run_counts_on (this s : S) (df out : DataFrame) :
  (forall n s0 p t w c,
     fix_pressure (set_n_visits n s0) p t w c = fix_pressure s0 p t w c) ->
  add_downtimes this df = Some (s, out) ->
  exists s2 : S,
    add_downtimes s out = Some (s2, out) /\
    n_visits s2 = n_visits s + (n_visits s - n_visits this).
Proof.
  intros Hindep Hrun.
  exact (rerun_counts_on this s df out out Hindep
           (add_downtimes_input_columns this s df out Hrun) Hrun).
Qed.

(** C9, as amended -- two runs on one series.  Let a run of the simulator
    from the strategy object [this] on the frame [df] return the object [s]
    and the annotated frame [out].  A second run from an object equal to
    [this] (a strategy constructed for that run with the same parameters) on
    a frame with the same input columns, or on [out] itself, returns the
    same annotated frame and the same object, hence the same visit counter.
    A second run from [s], the object the first run left, returns the same
    annotated frame again when the decision of the strategy does not read
    the visit counter, but a visit counter that is the one of the first run
    plus the visits of that run once more: the two counts differ as soon as
    the run has a visit. *)
Theorem runs_agree_counter_carries_over (this s : S) (df df' out : DataFrame) :
  input_columns df' = input_columns df ->
  add_downtimes this df = Some (s, out) ->
  add_downtimes this df' = Some (s, out) /\
  add_downtimes this out = Some (s, out) /\
  ((forall n s0 p t w c,
      fix_pressure (set_n_visits n s0) p t w c = fix_pressure s0 p t w c) ->
   exists s2 : S,
     add_downtimes s df' = Some (s2, out) /\
     add_downtimes s out = Some (s2, out) /\
     n_visits s2 = n_visits s + (n_visits s - n_visits this)).
Proof.
  intros Hin Hrun.
  pose proof (add_downtimes_input_columns this s df out Hrun) as Hout.
  split; [|split].
  - rewrite (add_downtimes_reads_input_columns this df'), Hin,
      <- (add_downtimes_reads_input_columns this df). exact Hrun.
  - rewrite (add_downtimes_reads_input_columns this out), Hout,
      <- (add_downtimes_reads_input_columns this df). exact Hrun.
  - intro Hindep.
    destruct (rerun_counts_on this s df df' out Hindep Hin Hrun) as (s2 & H2 & Hn).
    exists s2. split; [exact H2|]. split; [|exact Hn].
    rewrite (add_downtimes_reads_input_columns s out), Hout, <- Hin,
      <- (add_downtimes_reads_input_columns s df'). exact H2.
Qed.

End SecondRun.

Lemma second_run_counts_on_witness :
  exists s s2 : ConditionMonitoring,
    exists out : DataFrame,
      add_downtimes Samples.eager Samples.windy_start = Some (s, out) /\
      add_downtimes s out = Some (s2, out) /\
      n_visits s2 = n_visits s + (n_visits s - n_visits Samples.eager).
Proof.
  destruct (add_downtimes Samples.eager Samples.windy_start) as [[s out]|] eqn:E;
    [|vm_compute in E; discriminate].
  destruct (second_run_counts_on Samples.eager s Samples.windy_start out) as (s2 & H2 & Hn).
  - reflexivity.
  - exact E.
  - exists s, s2, out. now repeat split.
Defined.

(* The eager strategy on the series with a windy first hour, and on the same
   series carrying the annotations of an earlier run. *)
Lemma runs_agree_counter_carries_over_witness :
  exists (s s2 : ConditionMonitoring) (out : DataFrame),
    add_downtimes Samples.eager Samples.windy_start = Some (s, out) /\
    add_downtimes Samples.eager (Samples.annotated Samples.windy_start) = Some (s, out) /\
    add_downtimes Samples.eager out = Some (s, out) /\
    add_downtimes s (Samples.annotated Samples.windy_start) = Some (s2, out) /\
    add_downtimes s out = Some (s2, out) /\
    n_visits s2 = n_visits s + (n_visits s - n_visits Samples.eager).
Proof.
  destruct (add_downtimes Samples.eager Samples.windy_start) as [[s out]|] eqn:E;
    [|vm_compute in E; discriminate].
  destruct (runs_agree_counter_carries_over Samples.eager s Samples.windy_start
              (Samples.annotated Samples.windy_start) out)
    as (H1 & H2 & H3).
  - reflexivity.
  - exact E.
  - destruct H3 as (s2 & H4 & H5 & H6).
    + reflexivity.
    + exists s, s2, out.
      split; [reflexivity|]. split; [exact H1|]. split; [exact H2|].
      split; [exact H4|]. split; [exact H5|exact H6].
Defined.
